(** * College chatbot: the matching engine, the knowledge store and the
      document ingestion of [app.py], embedded in Rocq.

    A Python [str] is a Rocq [string].  The embedding is exact on ASCII
    text: a character outside ASCII appears as the bytes of its UTF-8
    encoding, which [lower], the token class [[a-zA-Z0-9]], the test for
    ['?'] and the white-space class all leave alone, and lengths then
    count bytes.  A Python [set] of strings is a [gset string], a [dict]
    used as a record is a [Record], a [dict] iterated in insertion order
    is an association list.  [random.choice], [uuid.uuid4],
    [datetime.now], the outcome of a file write and the iteration order
    of a [set] are arguments of the functions that consult them. *)

From Stdlib Require Import String Ascii List Arith Bool Lia.
From Stdlib Require Import Sorted Permutation.
From stdpp Require Import gmap strings list.
Import ListNotations.
Open Scope string_scope.
Open Scope list_scope.
Open Scope nat_scope.

(** ** Python string operations *)

Definition code (c : ascii) : nat := nat_of_ascii c.

Definition between (lo hi n : nat) : bool := (lo <=? n) && (n <=? hi).

Definition is_upper (c : ascii) : bool := between 65 90 (code c).

Definition is_alnum (c : ascii) : bool :=
  between 48 57 (code c) || between 65 90 (code c) || between 97 122 (code c).

(** [str.isspace] on one ASCII character, which is also the class [\s]
    of [re]: tab to carriage return, the four separators 28 to 31, and
    the space. *)
Definition is_space (c : ascii) : bool :=
  between 9 13 (code c) || between 28 32 (code c).

Definition lower_char (c : ascii) : ascii :=
  if is_upper c then ascii_of_nat (code c + 32) else c.

(** [s.lower()] *)
Fixpoint lower (s : string) : string :=
  match s with
  | EmptyString => EmptyString
  | String c s' => String (lower_char c) (lower s')
  end.

(** [s.startswith(p)] *)
Fixpoint startswith (s p : string) {struct p} : bool :=
  match p, s with
  | EmptyString, _ => true
  | String _ _, EmptyString => false
  | String a p', String b s' => Ascii.eqb a b && startswith s' p'
  end.

(** [k in s] for two strings: [k] is a contiguous part of [s]. *)
Fixpoint str_in (k s : string) : bool :=
  startswith s k ||
  match s with
  | EmptyString => false
  | String _ s' => str_in k s'
  end.

(** [s[:n]] and [s[n:]] for a non-negative [n]. *)
Fixpoint take_str (n : nat) (s : string) : string :=
  match n, s with
  | S n', String c s' => String c (take_str n' s')
  | _, _ => EmptyString
  end.

Fixpoint drop_str (n : nat) (s : string) : string :=
  match n, s with
  | S n', String _ s' => drop_str n' s'
  | _, _ => s
  end.

(** [s[start:stop]] for non-negative bounds. *)
Definition slice (s : string) (start stop : nat) : string :=
  take_str (stop - start) (drop_str start s).

(** [s.endswith(suffix)] *)
Definition endswith (s suffix : string) : bool :=
  (String.length suffix <=? String.length s) &&
  String.eqb (drop_str (String.length s - String.length suffix) s) suffix.

Fixpoint lstrip (s : string) : string :=
  match s with
  | EmptyString => EmptyString
  | String c s' => if is_space c then lstrip s' else s
  end.

Fixpoint rstrip (s : string) : string :=
  match s with
  | EmptyString => EmptyString
  | String c s' =>
      match rstrip s' with
      | EmptyString => if is_space c then EmptyString else String c EmptyString
      | r => String c r
      end
  end.

(** [s.strip()] *)
Definition strip (s : string) : string := rstrip (lstrip s).

(** Truth value of a string: [if s]. *)
Definition nonempty (s : string) : bool :=
  match s with EmptyString => false | String _ _ => true end.

(** [sep.join(parts)] *)
Fixpoint join (sep : string) (parts : list string) : string :=
  match parts with
  | [] => EmptyString
  | [p] => p
  | p :: rest => p +:+ sep +:+ join sep rest
  end.

(** [s.split(sep)] for a separator of one character; [cur] is the piece
    being read. *)
Fixpoint split_on (sep : ascii) (s cur : string) : list string :=
  match s with
  | EmptyString => [cur]
  | String c s' =>
      if Ascii.eqb c sep then cur :: split_on sep s' EmptyString
      else split_on sep s' (cur +:+ String c EmptyString)
  end.

(** ** The tokenizer *)

Definition flush (cur : string) : list string :=
  if nonempty cur then [cur] else [].

(** [re.findall(r"[a-zA-Z0-9]+", s)]: the maximal runs of letters and
    digits of [s], left to right; [cur] is the run being read. *)
Fixpoint findall_alnum (s cur : string) : list string :=
  match s with
  | EmptyString => flush cur
  | String c s' =>
      if is_alnum c then findall_alnum s' (cur +:+ String c EmptyString)
      else flush cur ++ findall_alnum s' EmptyString
  end.

(** [self._stopwords] *)
Definition _stopwords : gset string :=
  list_to_set
    ["the";"a";"an";"and";"or";"but";"if";"then";"else";"on";"in";"at";"for";
     "to";"from";"by";"with";"of";"is";"are";"was";"were";"be";"been";"it";
     "this";"that";"these";"those";"as";"about";"into";"over";"under";"after";
     "before";"between";"how";"what";"when";"where";"which";"who";"whom";"why";
     "can";"do";"does";"did";"will";"would";"should";"could";"may";"might";
     "you";"your";"yours";"we";"our";"ours";"they";"their";"theirs";"i";"me";
     "my";"mine"].

(** [CollegeAI._tokenize] *)
Definition _tokenize (text : string) : list string :=
  List.filter (fun t => nonempty t && bool_decide (t ∉ _stopwords))
              (findall_alnum (lower text) EmptyString).

(** [set(self._tokenize(text))] *)
Definition token_set (text : string) : gset string :=
  list_to_set (_tokenize text).

(** ** Knowledge entries *)

(** An entry of the admin tier, a [dict] with these keys. *)
Record entry := mk_entry {
  id : string;
  title : string;
  keywords : list string;
  responses : list string;
  created_at : string;
  source_pdf : option string
}.

(** A built-in category, a value of [self.knowledge_base]. *)
Record category := mk_category {
  cat_keywords : list string;
  cat_responses : list string
}.

(** ** The scorer *)

(** The line feed, and the separator [" \n "] of the response sample. *)
Definition nl : string := String (ascii_of_nat 10) EmptyString.

Definition sample_sep : string := " " +:+ nl +:+ " ".

(** [sum(1 for k in keywords if k and k in user_message_lower)] *)
Definition keyword_hits (user_message_lower : string) (kws : list string) : nat :=
  length (List.filter (fun k => nonempty k && str_in k user_message_lower) kws).

(** The loop [for k in keywords: keyword_tokens.update(self._tokenize(k))]. *)
Definition keyword_tokens (kws : list string) : gset string :=
  fold_left (fun acc k => acc ∪ token_set k) kws ∅.

(** [CollegeAI._score_entry_match] *)
Definition _score_entry_match
    (user_message_lower : string) (user_tokens : gset string) (e : entry) : nat :=
  let score := keyword_hits user_message_lower (keywords e) * 3 in
  let score := score + Nat.min (size (user_tokens ∩ keyword_tokens (keywords e))) 4 in
  let title_tokens := token_set (title e) in
  let score := score + Nat.min (size (user_tokens ∩ title_tokens)) 2 in
  let sample := join sample_sep (firstn 2 (responses e)) in
  let resp_tokens := token_set sample in
  score + Nat.min (size (user_tokens ∩ resp_tokens)) 5.


(** ** The built-in tier *)

Definition kb_admission : category :=
  mk_category
    ["admission"; "requirements"; "apply"; "application"; "enroll"; "enrollment"]
    ["Here are the general admission requirements for our college:

• High school diploma or equivalent (GED)
• Completed application form with $50 application fee
• Official high school transcripts
• SAT or ACT scores (recommended)
• Personal statement or essay
• Letters of recommendation (2 required)
• Application deadline: March 1st for Fall semester

For specific programs, additional requirements may apply. Would you like me to provide details about a particular major or program?";
     "To apply to our college, you'll need:

**Required Documents:**
• Application form (online or paper)
• $50 non-refundable application fee
• High school transcripts
• Standardized test scores

**Recommended:**
• Personal essay (500-750 words)
• Letters of recommendation
• Resume of activities

The application process typically takes 4-6 weeks for review."].

Definition kb_courses : category :=
  mk_category
    ["course"; "class"; "major"; "program"; "curriculum"; "syllabus"]
    ["We offer a wide range of courses across various disciplines:

**Arts & Humanities:**
• English Literature, Creative Writing, History, Philosophy, Art History

**Business & Economics:**
• Business Administration, Marketing, Finance, Economics, Entrepreneurship

**Science & Technology:**
• Computer Science, Biology, Chemistry, Physics, Mathematics, Engineering

**Social Sciences:**
• Psychology, Sociology, Political Science, Anthropology, Education

**Health Sciences:**
• Nursing, Public Health, Nutrition, Exercise Science

Each major has specific course requirements and electives. What field interests you most?";
     "Our academic programs are designed to provide comprehensive education:

**Undergraduate Programs:**
• Bachelor of Arts (BA)
• Bachelor of Science (BS)
• Bachelor of Business Administration (BBA)

**Graduate Programs:**
• Master of Arts (MA)
• Master of Science (MS)
• Master of Business Administration (MBA)

**Special Features:**
• Honors Program
• Study Abroad opportunities
• Internship programs
• Research opportunities"].

Definition kb_financial_aid : category :=
  mk_category
    ["financial"; "aid"; "scholarship"; "cost"; "tuition"; "fee"; "money"; "payment"]
    ["We're committed to making education affordable! Here's information about financial aid:

**Tuition & Fees:**
• Full-time tuition: $12,500 per semester
• Room & board: $8,000 per semester
• Books & supplies: ~$1,200 per semester

**Financial Aid Options:**
• Federal Pell Grants (up to $6,895/year)
• Federal Direct Loans
• Work-study programs
• Institutional scholarships
• State grants

**Application Process:**
1. Complete FAFSA (Free Application for Federal Student Aid)
2. Submit by March 1st priority deadline
3. Review your financial aid package
4. Accept/decline offers

Our financial aid office can help you explore all options. Would you like me to connect you with them?";
     "Understanding college costs is important! Here's a breakdown:

**Annual Costs (Full-time):**
• Tuition: $25,000
• Room & Board: $16,000
• Books & Supplies: $2,400
• Personal Expenses: $3,000
• **Total: ~$46,400/year**

**Ways to Reduce Costs:**
• Apply for scholarships early
• Consider community college for first 2 years
• Live off-campus (may be cheaper)
• Buy used textbooks
• Apply for work-study positions"].

Definition kb_library : category :=
  mk_category
    ["library"; "hours"; "study"; "book"; "resource"; "research"]
    ["Our library is a great place to study! Here are the current hours:

**Main Library Hours:**
• Monday-Thursday: 7:00 AM - 11:00 PM
• Friday: 7:00 AM - 8:00 PM
• Saturday: 9:00 AM - 6:00 PM
• Sunday: 12:00 PM - 11:00 PM

**Special Collections:**
• Rare Books Room: By appointment only
• Media Center: Same as main library
• Study Rooms: Available for 2-hour reservations

**Extended Hours During Finals:**
• Open 24/7 during final exam week
• Coffee cart available in evenings

The library also offers online resources accessible 24/7 from anywhere!";
     "The library provides comprehensive academic support:

**Physical Resources:**
• 500,000+ books and journals
• 50+ study rooms
• Computer workstations
• Printing services (100 free pages/semester)

**Online Resources:**
• E-books and databases
• Research guides
• Citation tools
• 24/7 chat support

**Services:**
• Research consultations
• Interlibrary loan
• Course reserves
• Technology help"].

Definition kb_campus_services : category :=
  mk_category
    ["campus"; "service"; "facility"; "center"; "office"; "help"]
    ["We have comprehensive campus services to support your academic and personal success:

**Academic Support Services:**
• **Writing Center** (Mon-Fri, 9 AM-5 PM, Library 2nd Floor)
  - One-on-one writing consultations
  - Essay and research paper assistance
  - Citation and formatting help
  - Online appointment booking available

• **Math Lab** (Mon-Thu, 10 AM-8 PM, Science Building Room 105)
  - Drop-in tutoring for all math levels
  - Calculus, statistics, and algebra support
  - Practice exams and study materials
  - Group study sessions available

**Health & Wellness Services:**
• **Student Health Center** (Mon-Fri, 8 AM-5 PM, Wellness Building)
• **Counseling Services** (confidential, free, 24/7 crisis hotline)
• **Fitness Center** (6 AM-11 PM daily, Recreation Center)
• **Recreation Center** (7 AM-12 AM daily)

**Student Life Services:**
• **Student Union** (7 AM-12 AM daily, Main Campus)
• **Career Services** (Mon-Fri, 9 AM-5 PM, Career Center)
• **International Student Office** (Mon-Fri, 8 AM-5 PM)
• **Disability Services** (Mon-Fri, 8 AM-5 PM)

What specific service would you like more information about?";
     "Our campus is designed to meet all your needs:

**Learning Spaces:**
• Modern classrooms with smart technology
• Collaborative study areas
• Quiet study zones
• Outdoor learning spaces

**Wellness Facilities:**
• Olympic-size swimming pool
• Fitness center with personal trainers
• Meditation garden
• Health clinic with pharmacy

**Student Support:**
• 24/7 campus security
• Emergency response team
• Lost and found office
• Information desk"].

Definition kb_student_life : category :=
  mk_category
    ["student life"; "club"; "activity"; "event"; "organization"; "social"]
    ["Campus life is vibrant and engaging! Here's everything you need to know about getting involved:

**Student Organizations (100+ Active Clubs):**
• **Academic & Professional Clubs:**
  - Math Club (meets Wednesdays, 6 PM, Science Building)
  - Science Society (monthly meetings, research presentations)
  - Business Students Association (networking events, guest speakers)
  - Pre-Med Society (MCAT prep, medical school visits)
  - Engineering Club (robotics competitions, industry tours)

**Cultural & International Organizations:**
• International Student Association (cultural nights, language exchange)
• Black Student Union (advocacy, cultural celebrations)
• Latinx Student Association (heritage month events)
• Asian Student Alliance (cultural festivals, mentorship)
• LGBTQ+ Student Union (support groups, awareness events)

**Major Campus Events & Traditions:**
• **August:** Welcome Week (orientation, club fair, welcome concert)
• **October:** Homecoming Week (alumni reunions, football game, parade)
• **November:** International Education Week (cultural performances, study abroad info)
• **February:** Black History Month (guest speakers, cultural celebrations)
• **March:** Women's History Month (leadership conferences, career development)
• **April:** Spring Festival (live music, food trucks, talent shows)

**Recreation & Sports:**
• Intramural sports (year-round leagues)
• Outdoor adventure program (hiking, camping, rock climbing)
• Fitness classes (50+ weekly options)
• Entertainment (movie nights, karaoke, game tournaments)

Getting involved is a great way to make friends and build your resume!";
     "There's never a dull moment on campus!

**Weekly Activities:**
• Monday: Movie Night
• Tuesday: Trivia Night
• Wednesday: Wellness Wednesday
• Thursday: Live Music
• Friday: Game Night
• Weekend: Outdoor adventures

**Special Programs:**
• Leadership development workshops
• Career networking events
• Cultural heritage celebrations
• Community service projects

**Athletics:**
• Varsity sports teams
• Club sports
• Intramural leagues
• Fitness challenges"].

Definition kb_technical_support : category :=
  mk_category
    ["technical"; "computer"; "software"; "wifi"; "internet"; "technology"; "it"]
    ["Need tech help? We've got comprehensive IT support to keep you connected and productive:

**IT Support Services (24/7 Availability):**
• **Help Desk Hotline:** (555) 123-4567
• **Email Support:** helpdesk@college.edu
• **Live Chat:** Available on college website and student portal
• **Walk-in Support:** Tech Support Building (Mon-Fri, 8 AM-8 PM)
• **Emergency Support:** After-hours critical issues only

**Network & WiFi Support:**
• **WiFi Connection:** Network: 'College_Network', Username: Your student ID
• **WiFi Coverage:** All academic buildings, residence halls, outdoor spaces
• **Common Issues:** Restart device, check credentials, move closer to access points

**Software & Applications:**
• **Free Software:** Microsoft Office 365, Adobe Creative Suite, SPSS, MATLAB
• **Installation:** Download from student portal, guides available, remote support

**Computer Labs & Equipment:**
• **Main Library:** 50+ Windows workstations, printing, scanning
• **Science Building:** 30 specialized computers, scientific software
• **Business School:** 25 financial modeling workstations, Bloomberg Terminal
• **Arts Center:** 20 Mac workstations, Adobe Suite, video editing tools

What specific technical issue are you experiencing? I can provide step-by-step solutions.";
     "Technology is essential for modern education:

**Available Software:**
• Microsoft Office 365 (free)
• Adobe Creative Suite
• Statistical analysis tools
• Programming environments

**Online Platforms:**
• Learning Management System
• Student portal
• Library databases
• Career services platform

**Support Channels:**
• In-person help desk
• Remote desktop support
• Video tutorials
• Knowledge base articles"].

Definition kb_academic_calendar : category :=
  mk_category
    ["calendar"; "deadline"; "exam"; "break"; "holiday"; "schedule"]
    ["Here's the comprehensive academic calendar for the 2024-2025 academic year:

**Fall Semester 2024 (August 26 - December 20):**
• **August 26** - Classes begin
• **August 26-September 6** - Add/Drop period (100% refund)
• **September 2** - Labor Day (no classes, campus closed)
• **September 9-13** - Late registration period (50% refund)
• **October 14-15** - Fall Break (no classes)
• **October 21** - Midterm grades due
• **November 27-29** - Thanksgiving Break (no classes, campus closed)
• **December 16-20** - Final examinations
• **December 20** - Fall semester ends

**Spring Semester 2025 (January 13 - May 10):**
• **January 13** - Classes begin
• **January 13-24** - Add/Drop period (100% refund)
• **January 20** - Martin Luther King Day (no classes)
• **March 10-14** - Spring Break (no classes)
• **May 5-9** - Final examinations
• **May 10** - Spring semester ends & Commencement

**Important Academic Deadlines:**
• **Graduation Application:** Fall (July 1st), Spring (March 1st), Summer (April 1st)
• **Financial Aid:** FAFSA priority deadline March 1st
• **Housing:** Fall application May 1st, Spring application November 1st
• **Registration:** Priority registration April (Fall), November (Spring)

Need specific dates for your program, major requirements, or other academic information?";
     "Stay organized with our academic calendar:

**Registration Periods:**
• Fall registration: April 1-30
• Spring registration: November 1-30
• Summer registration: March 1-31

**Academic Deadlines:**
• Course withdrawal: 75% of semester
• Grade change requests: 30 days after grades posted
• Incomplete grade completion: Next semester
• Academic appeal: 10 business days

**Special Events:**
• Academic advising week
• Career fair
• Research symposium
• Honors convocation"].

Definition kb_housing : category :=
  mk_category
    ["housing"; "dorm"; "residence"; "room"; "accommodation"; "living"; "apartment"]
    ["We offer excellent on-campus housing options for students:

**Residence Halls:**
• Traditional dorms: $4,500/semester
• Suite-style: $5,200/semester
• Apartment-style: $6,000/semester

**Amenities Included:**
• High-speed WiFi
• Laundry facilities
• Study lounges
• 24/7 security
• Meal plan options

**Application Process:**
1. Submit housing application by May 1st
2. Pay $200 housing deposit
3. Room selection in June
4. Move-in day: August 24th

Would you like information about specific residence halls or off-campus options?";
     "Our housing options are designed for student success:

**Living Learning Communities:**
• Honors Hall - Academic focus
• Global Village - International students
• STEM House - Science & engineering
• Arts Collective - Creative students

**Off-Campus Resources:**
• Approved apartment complexes
• Homestay programs
• Commuter parking permits
• Shuttle service to campus

**Housing Office Contact:**
• Phone: (555) 123-4568
• Email: housing@college.edu
• Office: Student Center, Room 201"].

Definition kb_parking : category :=
  mk_category
    ["parking"; "car"; "vehicle"; "transportation"; "commute"; "shuttle"; "bus"]
    ["Here's everything you need to know about parking and transportation:

**Student Parking Permits:**
• Annual permit: $300
• Semester permit: $180
• Daily parking: $5/day

**Parking Lots:**
• North Campus: 500 spaces
• South Campus: 300 spaces
• East Campus: 200 spaces
• Visitor parking: 50 spaces

**Free Shuttle Service:**
• Runs every 15 minutes
• 7:00 AM - 11:00 PM daily
• Connects all campus areas
• Real-time tracking app available

**Alternative Transportation:**
• City bus routes (free with student ID)
• Bike share program
• Carpool matching service

Need help with permit application or shuttle routes?"].

(** [CollegeAI._load_knowledge_base]: the categories in the order the
    [dict] literal lists them, which is the order [items()] yields. *)
Definition _load_knowledge_base : list (string * category) :=
  [("admission", kb_admission);
   ("courses", kb_courses);
   ("financial_aid", kb_financial_aid);
   ("library", kb_library);
   ("campus_services", kb_campus_services);
   ("student_life", kb_student_life);
   ("technical_support", kb_technical_support);
   ("academic_calendar", kb_academic_calendar);
   ("housing", kb_housing);
   ("parking", kb_parking)].

(** The pool of [CollegeAI._get_default_response]. *)
Definition default_responses : list string :=
  ["Thank you for your question! I'm here to help with college-related inquiries.

I can assist with:
• Admission requirements and applications
• Course information and academic programs
• Financial aid and scholarships
• Campus services and facilities
• Student life and activities
• Technical support
• Academic calendar and deadlines

Could you please rephrase your question or ask about something specific? I want to make sure I provide you with the most helpful information.";
   "I appreciate your question! While I'm designed to help with college-related topics, I want to make sure I understand exactly what you need.

Try asking about:
• How to apply to college
• What courses are available
• How much does college cost
• What services are available on campus
• When are important deadlines

Or feel free to ask your question in a different way!";
   "I'm here to help with college questions! Sometimes I need a bit more context to provide the best answer.

You can ask me about:
• Academic programs and requirements
• Financial aid and costs
• Campus life and activities
• Student services and support
• Important dates and deadlines

What would you like to know more about?"].

(** ** The ranker and the response selector *)

(** One turn of the loop
    [if score > best_score: best_score = score; best = x]. *)
Definition rank_step {A : Type} (score : A -> nat)
    (st : option A * nat) (x : A) : option A * nat :=
  if snd st <? score x then (Some x, score x) else st.

(** The ranking loop of [get_response], started from [best = None] and
    [best_score = 0] and run over the entries in their order. *)
Definition rank {A : Type} (score : A -> nat) (l : list A) : option A * nat :=
  fold_left (rank_step score) l (None, 0).

(** What the loop knows after the entries [seen]: nothing scored above
    zero, or [e] is the first of the best. *)
Definition ranked {A : Type} (score : A -> nat) (seen : list A)
    (st : option A * nat) : Prop :=
  match st with
  | (None, s) => s = 0 /\ Forall (fun x => score x = 0) seen
  | (Some e, s) =>
      s = score e /\ 0 < s /\
      exists l1 l2, seen = l1 ++ e :: l2 /\
        Forall (fun x => score x < score e) l1 /\
        Forall (fun x => score x <= score e) l2
  end.

(** [sum(1 for keyword in data['keywords'] if keyword in user_message_lower)] *)
Definition builtin_score (user_message_lower : string) (item : string * category) : nat :=
  length (List.filter (fun keyword => str_in keyword user_message_lower)
                      (cat_keywords (snd item))).

(** [self.knowledge_base[name]] *)
Fixpoint kb_lookup (kb : list (string * category)) (name : string) : option category :=
  match kb with
  | [] => None
  | (n, c) :: rest => if String.eqb n name then Some c else kb_lookup rest name
  end.

(** [random.choice(seq)] with the drawn number [rnd]: the element at
    index [rnd mod len(seq)].  Python raises on an empty sequence; every
    call below is on a non-empty one (the admin guard tests the response
    list, the built-in table and the default pool are constants), and the
    model then gives the empty string. *)
Definition random_choice (rnd : nat) (seq : list string) : string :=
  nth (rnd mod length seq) seq EmptyString.

Definition followup : string :=
  nl +:+ nl +:+ "Is there anything else you'd like to know?".

Definition has_qmark (user_message : string) : bool := str_in "?" user_message.

(** The personalization of the admin branch:
    [if '?' in user_message and response and not response.strip().endswith('?')]. *)
Definition personalize_admin (user_message response : string) : string :=
  if has_qmark user_message && nonempty response && negb (endswith (strip response) "?")
  then response +:+ followup else response.

(** The personalization of the built-in branch: [if '?' in user_message]. *)
Definition personalize_builtin (user_message response : string) : string :=
  if has_qmark user_message then response +:+ followup else response.

(** [CollegeAI._get_default_response] *)
Definition _get_default_response (rnd : nat) (user_message : string) : string :=
  random_choice rnd default_responses.

Inductive turn :=
| UserTurn (text timestamp : string)
| BotTurn (text timestamp : string).

(** The state of a [CollegeAI] object that the selector reads and
    writes; [knowledge_base] and [_stopwords] are the constants above. *)
Record CollegeAI := mk_ai {
  admin_knowledge : list entry;
  conversation_history : list turn
}.

(** The admin ranking of a query: [best_admin] and [best_admin_score]. *)
Definition rank_admin (tier : list entry) (user_message : string) : option entry * nat :=
  rank (_score_entry_match (lower user_message) (token_set user_message)) tier.

(** The built-in ranking of a query: [best_match] and [highest_score]. *)
Definition rank_builtin (kb : list (string * category)) (user_message : string)
  : option (string * category) * nat :=
  rank (builtin_score (lower user_message)) kb.

(** The guard of the admin branch:
    [best_admin and best_admin_score > 0 and best_admin.get('responses')]. *)
Definition admin_guard (r : option entry * nat) : option entry :=
  match r with
  | (Some best_admin, best_admin_score) =>
      if (0 <? best_admin_score) && (0 <? length (responses best_admin))
      then Some best_admin else None
  | (None, _) => None
  end.

(** The rest of [get_response] once the admin branch is not taken. *)
Definition builtin_or_default (kb : list (string * category)) (rnd : nat)
    (user_message : string) : string :=
  match rank_builtin kb user_message with
  | (Some (best_match, _), highest_score) =>
      if nonempty best_match && (0 <? highest_score) then
        match kb_lookup kb best_match with
        | Some data => personalize_builtin user_message (random_choice rnd (cat_responses data))
        | None => EmptyString
        end
      else _get_default_response rnd user_message
  | (None, _) => _get_default_response rnd user_message
  end.

(** The text [get_response] returns, for the drawn number [rnd]. *)
Definition response_text (kb : list (string * category)) (tier : list entry)
    (rnd : nat) (user_message : string) : string :=
  match admin_guard (rank_admin tier user_message) with
  | Some best_admin =>
      personalize_admin user_message (random_choice rnd (responses best_admin))
  | None => builtin_or_default kb rnd user_message
  end.

(** [CollegeAI.get_response]: the reply and the object afterwards; [now1]
    and [now2] are the two readings of the clock. *)
Definition get_response (ai : CollegeAI) (rnd : nat) (now1 now2 : string)
    (user_message : string) : string * CollegeAI :=
  let response := response_text _load_knowledge_base (admin_knowledge ai) rnd user_message in
  (response,
   mk_ai (admin_knowledge ai)
         (conversation_history ai ++ [UserTurn user_message now1; BotTurn response now2])).

Record source_meta := mk_source {
  src_type : string;
  src_id : string;
  src_title : string;
  src_source_pdf : option string
}.

(** [CollegeAI.get_response_with_meta] *)
Definition get_response_with_meta (ai : CollegeAI) (rnd : nat) (now1 now2 : string)
    (user_message : string) : (string * option source_meta) * CollegeAI :=
  match admin_guard (rank_admin (admin_knowledge ai) user_message) with
  | Some best_admin =>
      let text := personalize_admin user_message (random_choice rnd (responses best_admin)) in
      ((text, Some (mk_source "admin" (id best_admin) (title best_admin) (source_pdf best_admin))),
       mk_ai (admin_knowledge ai)
             (conversation_history ai ++ [UserTurn user_message now1; BotTurn text now2]))
  | None =>
      let '(text, ai') := get_response ai rnd now1 now2 user_message in
      ((text, None), ai')
  end.

(** The three ways [get_response] ends, in the order it tries them. *)
Inductive branch :=
| AdminMatch (best_admin : entry)
| BuiltInMatch (data : category)
| DefaultFallback.

(** The branch the conditions of [get_response] select.  A name ranked
    out of the table is a key of the table, so the last case of the
    look-up does not arise. *)
Definition selected_branch (kb : list (string * category)) (tier : list entry)
    (user_message : string) : branch :=
  match admin_guard (rank_admin tier user_message) with
  | Some best_admin => AdminMatch best_admin
  | None =>
      match rank_builtin kb user_message with
      | (Some (best_match, _), highest_score) =>
          if nonempty best_match && (0 <? highest_score) then
            match kb_lookup kb best_match with
            | Some data => BuiltInMatch data
            | None => DefaultFallback
            end
          else DefaultFallback
      | (None, _) => DefaultFallback
      end
  end.

(** The response [random.choice] draws in that branch, before any
    follow-up is added. *)
Definition chosen_response (kb : list (string * category)) (tier : list entry)
    (rnd : nat) (user_message : string) : string :=
  match selected_branch kb tier user_message with
  | AdminMatch best_admin => random_choice rnd (responses best_admin)
  | BuiltInMatch data => random_choice rnd (cat_responses data)
  | DefaultFallback => random_choice rnd default_responses
  end.

(** The admin score as the specification words it: three points for
    every keyword that is a literal part of the lowercased query, and
    the three capped token overlaps. *)
Definition score_as_specified (user_message : string) (e : entry) : nat :=
  let user_tokens := token_set user_message in
  3 * length (List.filter (fun k => str_in k (lower user_message)) (keywords e))
  + Nat.min (size (user_tokens ∩ ⋃ (map token_set (keywords e)))) 4
  + Nat.min (size (user_tokens ∩ token_set (title e))) 2
  + Nat.min (size (user_tokens ∩ ⋃ (map token_set (firstn 2 (responses e))))) 5.

(** ** Document ingestion: chunking *)

Definition is_nl (c : ascii) : bool := Ascii.eqb c (ascii_of_nat 10).

(** [re.sub(r"\u0000", "", s)] *)
Fixpoint remove_nul (s : string) : string :=
  match s with
  | EmptyString => EmptyString
  | String c s' =>
      if Ascii.eqb c (ascii_of_nat 0) then remove_nul s' else String c (remove_nul s')
  end.

(** How far the greedy [\s*\n] reaches at the start of [s]: the number
    of characters up to and including the last line feed of the leading
    white-space run, when that run has a line feed. *)
Fixpoint last_nl_in_run (s : string) : option nat :=
  match s with
  | EmptyString => None
  | String c s' =>
      if is_space c then
        match last_nl_in_run s' with
        | Some n => Some (S n)
        | None => if is_nl c then Some 1 else None
        end
      else None
  end.

(** The length of the match of [\n\s*\n] at the start of [s], if it
    matches there. *)
Definition match_blank (s : string) : option nat :=
  match s with
  | EmptyString => None
  | String c s' => if is_nl c then option_map S (last_nl_in_run s') else None
  end.

(** [re.split(r"\n\s*\n", s)]: scan left to right; where the pattern
    matches, close the piece being read ([cur]) and pass over the match
    ([skip] counts the characters of it still ahead). *)
Fixpoint re_split_blank (s : string) (skip : nat) (cur : string) : list string :=
  match s with
  | EmptyString => [cur]
  | String c s' =>
      match skip with
      | S k => re_split_blank s' k cur
      | 0 =>
          match match_blank (String c s') with
          | Some n => cur :: re_split_blank s' (n - 1) EmptyString
          | None => re_split_blank s' 0 (cur +:+ String c EmptyString)
          end
      end
  end.

(** [[p.strip() for p in re.split(r"\n\s*\n", text) if p.strip()]] *)
Definition paragraphs (text : string) : list string :=
  map strip (List.filter (fun p => nonempty (strip p)) (re_split_blank text 0 EmptyString)).

(** The loop [while start < len(para)] of [chunk_text]; [None] when
    [fuel] turns do not end it. *)
Fixpoint chunk_loop (fuel : nat) (para : string) (size start : nat)
    (segments : list string) : option (list string) :=
  if start <? String.length para then
    match fuel with
    | 0 => None
    | S fuel' =>
        chunk_loop fuel' para size (start + size)
                   (segments ++ [slice para start (start + size)])
    end
  else Some segments.

(** The loop [for para in paragraphs]. *)
Fixpoint chunk_paragraphs (paras : list string) (size : nat)
    (segments : list string) : option (list string) :=
  match paras with
  | [] => Some segments
  | para :: rest =>
      match chunk_loop (String.length para) para size 0 segments with
      | Some segments' => chunk_paragraphs rest size segments'
      | None => None
      end
  end.

(** [chunk_text(text, size)]; the inner loop is given as many turns as
    the paragraph has characters, which ends it for every [size > 0]
    (with [size = 0] the Python loop does not end). *)
Definition chunk_text (text : string) (size : nat) : option (list string) :=
  option_map (List.filter nonempty) (chunk_paragraphs (paragraphs text) size []).

(** [chunk_text(extracted_text, size=800)[:10]] *)
Definition upload_responses (extracted_text : string) : option (list string) :=
  option_map (firstn 10) (chunk_text extracted_text 800).

(** [s.isspace()] or [s == ""]: every character is white space. *)
Fixpoint all_space (s : string) : bool :=
  match s with
  | EmptyString => true
  | String c s' => is_space c && all_space s'
  end.

(** A text the pattern [\n\s*\n] matches as a whole: a line feed, white
    space, a line feed. *)
Definition blank_gap (s : string) : Prop :=
  exists ws, s = nl +:+ ws +:+ nl /\ all_space ws = true.

(** The pieces of a split put back around the separators that were
    between them. *)
Fixpoint weave (pieces seps : list string) : string :=
  match pieces, seps with
  | p :: pieces', sep :: seps' => p +:+ sep +:+ weave pieces' seps'
  | p :: _, [] => p
  | [], _ => EmptyString
  end.

(** What the chunker owes one paragraph: its segments, put end to end,
    are the paragraph; none is empty or longer than [size]; all but the
    last have exactly [size] characters. *)
Definition chunks_of (size : nat) (para : string) (segments : list string) : Prop :=
  fold_right String.append EmptyString segments = para /\
  Forall (fun s => 0 < String.length s <= size) segments /\
  Forall (fun s => String.length s = size) (removelast segments).

(** ** Document ingestion: keywords *)

(** The local [tokenize] of [upload_pdf_knowledge]. *)
Definition tokenize (text : string) : list string :=
  List.filter nonempty (findall_alnum (lower text) EmptyString).

(** [freq[tok] = freq.get(tok, 0) + 1] on a [dict] kept in insertion
    order. *)
Fixpoint freq_add (tok : string) (freq : list (string * nat)) : list (string * nat) :=
  match freq with
  | [] => [(tok, 1)]
  | (t, n) :: rest =>
      if String.eqb t tok then (t, n + 1) :: rest else (t, n) :: freq_add tok rest
  end.

(** [freq.get(tok, 0)] *)
Fixpoint freq_get (freq : list (string * nat)) (tok : string) : nat :=
  match freq with
  | [] => 0
  | (t, n) :: rest => if String.eqb t tok then n else freq_get rest tok
  end.

(** The tokens the frequency loop does not skip. *)
Definition counted (tok : string) : bool :=
  negb ((String.length tok <=? 2) || bool_decide (tok ∈ _stopwords)).

(** The frequency loop over [tokenize(extracted_text)]. *)
Definition count_tokens (toks : list string) : list (string * nat) :=
  fold_left (fun freq tok => if counted tok then freq_add tok freq else freq) toks [].

(** [sorted(items, key=lambda x: x[1], reverse=True)]: a stable sort by
    decreasing count, written as an insertion sort from the right. *)
Fixpoint insert_desc (x : string * nat) (l : list (string * nat)) : list (string * nat) :=
  match l with
  | [] => [x]
  | y :: l' => if snd x <? snd y then y :: insert_desc x l' else x :: y :: l'
  end.

Definition sorted_desc (l : list (string * nat)) : list (string * nat) :=
  fold_right insert_desc [] l.

(** The tokens of [frequent[:10]]. *)
Definition frequent_tokens (extracted_text : string) : list string :=
  map fst (firstn 10 (sorted_desc (count_tokens (tokenize extracted_text)))).

(** The distinct members of a list in the order in which they first
    occur. *)
Definition first_seen (l : list string) : list string :=
  fold_left (fun seen t => if existsb (String.eqb t) seen then seen else seen ++ [t]) l [].

(** How often [t] occurs in [l]. *)
Definition occurrences (t : string) (l : list string) : nat :=
  length (List.filter (String.eqb t) l).

(** Every character is an ASCII letter or digit. *)
Fixpoint all_alnum (s : string) : bool :=
  match s with
  | EmptyString => true
  | String c s' => is_alnum c && all_alnum s'
  end.

(** [[k.strip().lower() for k in raw_keywords.split(',') if k.strip()]] *)
Definition form_keywords (raw_keywords : string) : list string :=
  map (fun k => lower (strip k))
      (List.filter (fun k => nonempty (strip k)) (split_on "," raw_keywords EmptyString)).

(** [base_tokens] once the title tokens and the frequent tokens are in. *)
Definition base_tokens (title raw_keywords extracted_text : string) : gset string :=
  let title_tokens := List.filter (fun t => 2 <? String.length t) (tokenize title) in
  list_to_set (form_keywords raw_keywords)
  ∪ list_to_set (firstn 5 title_tokens)
  ∪ list_to_set (frequent_tokens extracted_text).

(** [[k for k in list(base_tokens) if k][:25]]; [order] is the order in
    which Python lists the members of a set. *)
Definition upload_keywords (order : gset string -> list string)
    (title raw_keywords extracted_text : string) : list string :=
  firstn 25 (List.filter nonempty (order (base_tokens title raw_keywords extracted_text))).

(** ** JSON values *)

(** What [json.load] and [request.get_json] return.  A number is given
    as an integer; the code below looks at a number only through its
    truth value and [str]. *)
#[warnings="-register-all"]
Inductive json :=
| JNull
| JBool (b : bool)
| JNum (z : Z)
| JStr (s : string)
| JList (l : list json)
| JDict (d : list (string * json)).

(** Truth value of a Python object. *)
Definition truthy (j : json) : bool :=
  match j with
  | JNull => false
  | JBool b => b
  | JNum z => negb (Z.eqb z 0)
  | JStr s => nonempty s
  | JList l => 0 <? length l
  | JDict d => 0 <? length d
  end.

(** [k in d] and [d[k]] *)
Fixpoint dict_lookup (d : list (string * json)) (k : string) : option json :=
  match d with
  | [] => None
  | (k', v) :: rest => if String.eqb k' k then Some v else dict_lookup rest k
  end.

(** [d.get(k)]: [None] (here [JNull]) for a missing key. *)
Definition dict_get (d : list (string * json)) (k : string) : json :=
  match dict_lookup d k with Some v => v | None => JNull end.

(** [x or y] *)
Definition py_or (x y : json) : json := if truthy x then x else y.

(** [str(x)]: a string is itself, any other value is printed by [repr],
    Python's printer, which the model takes as given. *)
Definition py_str (repr : json -> string) (x : json) : string :=
  match x with JStr s => s | _ => repr x end.

Definition chars (s : string) : list json :=
  map (fun c => JStr (String c EmptyString)) (list_ascii_of_string s).

(** [for x in j]: the items a Python [for] yields, [None] where the
    value is not iterable and Python raises. *)
Definition iterate (j : json) : option (list json) :=
  match j with
  | JList l => Some l
  | JStr s => Some (chars s)
  | JDict d => Some (map (fun kv => JStr (fst kv)) d)
  | _ => None
  end.

(** [[x for x in l if isinstance(x, str)]] *)
Fixpoint only_strings (l : list json) : list string :=
  match l with
  | [] => []
  | JStr s :: rest => s :: only_strings rest
  | _ :: rest => only_strings rest
  end.

(** ** The knowledge store *)

(** The process memory the admin routes work on.  An entry is a [dict]
    object: [objects] holds the objects by address, and
    [ai_assistant.admin_knowledge] is a list of addresses, so that two
    lists can hold the same object.
    [disk] is the content of [knowledge.json], [None] while the file does
    not exist. *)
Record server := mk_server {
  objects : list entry;
  tier : list nat;
  disk : option json
}.

(** The entries a list of addresses stands for. *)
Definition deref (objs : list entry) (refs : list nat) : list entry :=
  omap (fun a => objs !! a) refs.

(** The admin tier as a reader of [ai_assistant.admin_knowledge] sees it. *)
Definition view (srv : server) : list entry := deref (objects srv) (tier srv).

(** What a route answers: the HTTP status with the entry or the error
    message of the body. *)
Inductive reply :=
| Success (e : option entry)
| Failure (status : nat) (error : string).

(** An entry as [json.dump] writes it, the keys in the order the [dict]
    was built; [source_pdf] is a key of uploaded entries only. *)
Definition entry_json (e : entry) : json :=
  JDict ([("id", JStr (id e)); ("title", JStr (title e));
          ("keywords", JList (map JStr (keywords e)));
          ("responses", JList (map JStr (responses e)));
          ("created_at", JStr (created_at e))]
         ++ match source_pdf e with
            | Some f => [("source_pdf", JStr f)]
            | None => []
            end).

(** [_save_admin_entries(entries)] with the outcome [write_ok] of
    [write_json_file]: the file is replaced as a whole or not at all. *)
Definition _save_admin_entries (write_ok : bool) (objs : list entry)
    (entries : list nat) (d : option json) : option json :=
  if write_ok then Some (JDict [("entries", JList (map entry_json (deref objs entries)))])
  else d.

Definition is_list (j : json) : bool :=
  match j with JList _ => true | _ => false end.

Definition items (j : json) : list json :=
  match j with JList l => l | _ => [] end.

(** The value of [responses] after
    [if responses is None and response is not None: responses = [response]]. *)
Definition responses_field (body : list (string * json)) : json :=
  match dict_get body "responses", dict_get body "response" with
  | JNull, JNull => JNull
  | JNull, response => JList [response]
  | responses, _ => responses
  end.

(** [add_knowledge], for a request whose body is a JSON object;
    [authorized] is [_require_admin(request)], [new_id] and [now] are
    the values of [uuid.uuid4()] and [datetime.now().isoformat()]. *)
Definition add_knowledge (repr : json -> string) (authorized : bool)
    (body : list (string * json)) (new_id now : string) (write_ok : bool)
    (srv : server) : reply * server :=
  if negb authorized then (Failure 401 "Unauthorized", srv) else
  let keywords := py_or (dict_get body "keywords") (JList []) in
  let responses := responses_field body in
  let title := py_or (dict_get body "title") (JStr "Custom") in
  if negb (is_list keywords) || negb (truthy keywords) then
    (Failure 400 "keywords must be a non-empty array", srv)
  else if negb (is_list responses) || negb (truthy responses) then
    (Failure 400 "responses must be a non-empty array", srv)
  else
    let entry :=
      mk_entry new_id (py_str repr title)
               (map (fun k => lower (py_str repr k)) (items keywords))
               (map (py_str repr) (items responses))
               now None in
    let objs := objects srv ++ [entry] in
    let entries := tier srv ++ [length (objects srv)] in
    if negb write_ok then
      (Failure 500 "Failed to save entry",
       mk_server objs (tier srv) (_save_admin_entries write_ok objs entries (disk srv)))
    else
      (Success (Some entry),
       mk_server objs entries (_save_admin_entries write_ok objs entries (disk srv))).

(** The loop [for e in entries: if e.get('id') == entry_id: found = e; break]. *)
Fixpoint find_entry (objs : list entry) (entries : list nat) (entry_id : string)
  : option nat :=
  match entries with
  | [] => None
  | a :: rest =>
      match objs !! a with
      | Some e => if String.eqb (id e) entry_id then Some a else find_entry objs rest entry_id
      | None => find_entry objs rest entry_id
      end
  end.

(** The three assignments of [update_knowledge] to the [dict] found. *)
Definition apply_update (repr : json -> string) (body : list (string * json))
    (found : entry) : entry :=
  let found :=
    match dict_lookup body "title" with
    | Some t => mk_entry (id found) (py_str repr t) (keywords found) (responses found)
                         (created_at found) (source_pdf found)
    | None => found
    end in
  let found :=
    match dict_lookup body "keywords" with
    | Some (JList (k :: ks)) =>
        mk_entry (id found) (title found) (map (fun k => lower (py_str repr k)) (k :: ks))
                 (responses found) (created_at found) (source_pdf found)
    | _ => found
    end in
  match dict_lookup body "responses" with
  | Some (JList (r :: rs)) =>
      mk_entry (id found) (title found) (keywords found) (map (py_str repr) (r :: rs))
               (created_at found) (source_pdf found)
  | _ => found
  end.

(** [update_knowledge]: [entries] is a copy of the list, holding the
    same objects, and the assignments write to the object found before
    the file is written. *)
Definition update_knowledge (repr : json -> string) (authorized : bool)
    (entry_id : string) (body : list (string * json)) (write_ok : bool)
    (srv : server) : reply * server :=
  if negb authorized then (Failure 401 "Unauthorized", srv) else
  let entries := tier srv in
  match find_entry (objects srv) entries entry_id with
  | None => (Failure 404 "Entry not found", srv)
  | Some a =>
      match objects srv !! a with
      | None => (Failure 404 "Entry not found", srv)
      | Some found =>
          let found' := apply_update repr body found in
          let objs := <[a := found']> (objects srv) in
          let d := _save_admin_entries write_ok objs entries (disk srv) in
          if negb write_ok then
            (Failure 500 "Failed to save entry", mk_server objs (tier srv) d)
          else (Success (Some found'), mk_server objs entries d)
      end
  end.

(** [delete_knowledge] *)
Definition delete_knowledge (authorized : bool) (entry_id : string)
    (write_ok : bool) (srv : server) : reply * server :=
  if negb authorized then (Failure 401 "Unauthorized", srv) else
  let entries :=
    List.filter (fun a => match objects srv !! a with
                          | Some e => negb (String.eqb (id e) entry_id)
                          | None => true
                          end) (tier srv) in
  if length entries =? length (tier srv) then (Failure 404 "Entry not found", srv)
  else
    let d := _save_admin_entries write_ok (objects srv) entries (disk srv) in
    if negb write_ok then
      (Failure 500 "Failed to delete entry", mk_server (objects srv) (tier srv) d)
    else (Success None, mk_server (objects srv) entries d).

(** The document [_save_admin_entries] writes for a list of entries. *)
Definition tier_json (entries : list entry) : json :=
  JDict [("entries", JList (map entry_json entries))].

(** Every keyword of the entry is its own lowercase form. *)
Definition lowercase_keywords (e : entry) : Prop :=
  Forall (fun k => lower k = k) (keywords e).

(** The memory is well formed: every address in the tier is the address
    of an object, and no object is in the tier twice. *)
Definition store_ok (srv : server) : Prop :=
  Forall (fun a => a < length (objects srv)) (tier srv) /\ NoDup (tier srv).

(** An entry without its [source_pdf] key. *)
Definition forget_pdf (e : entry) : entry :=
  mk_entry (id e) (title e) (keywords e) (responses e) (created_at e) None.

(** ** Loading the admin tier *)

(** The result of a computation that may leave the model: [Raised]
    where Python raises, [Untyped] where a value that the record
    [entry] holds as a string is a non-string in the file. *)
Inductive outcome (A : Type) :=
| Done (x : A)
| Raised
| Untyped.

Arguments Done {A} x.
Arguments Raised {A}.
Arguments Untyped {A}.

(** [v or dflt] for a field the record holds as a string. *)
Definition text_field (v : json) (dflt : string) : option string :=
  if truthy v then match v with JStr s => Some s | _ => None end else Some dflt.

(** One turn of the loop of [_load_admin_knowledge]; [new_id] and [now]
    are [str(uuid.uuid4())] and [datetime.now().isoformat()]. *)
Definition normalize_entry (new_id now : string) (raw : json) : outcome entry :=
  match raw with
  | JDict d =>
      let keywords := py_or (dict_get d "keywords") (JList []) in
      let responses := responses_field d in
      let responses := if is_list responses then items responses else [] in
      match iterate keywords with
      | None => Raised
      | Some ks =>
          match text_field (dict_get d "id") new_id,
                text_field (dict_get d "title") "Custom",
                text_field (dict_get d "created_at") now with
          | Some i, Some t, Some c =>
              Done (mk_entry i t (map lower (only_strings ks)) (only_strings responses) c None)
          | _, _, _ => Untyped
          end
      end
  | _ => Raised
  end.

Fixpoint normalize_all (uuids clock : nat -> string) (i : nat) (entries : list json)
  : outcome (list entry) :=
  match entries with
  | [] => Done []
  | raw :: rest =>
      match normalize_entry (uuids i) (clock i) raw with
      | Done e =>
          match normalize_all uuids clock (S i) rest with
          | Done es => Done (e :: es)
          | Raised => Raised
          | Untyped => Untyped
          end
      | Raised => Raised
      | Untyped => Untyped
      end
  end.

(** [CollegeAI._load_admin_knowledge]; [file] is what [json.load] reads
    from [knowledge.json], [None] where [read_json_file] falls back on
    its default. *)
Definition _load_admin_knowledge (file : option json) (uuids clock : nat -> string)
  : outcome (list entry) :=
  let data := match file with
              | Some j => j
              | None => JDict [("entries", JList [])]
              end in
  match data with
  | JDict d =>
      let entries := match dict_lookup d "entries" with
                     | Some v => v
                     | None => JList []
                     end in
      match iterate entries with
      | Some l => normalize_all uuids clock 0 l
      | None => Raised
      end
  | _ => Raised
  end.

(** The memory once [CollegeAI()] has run: one object per entry loaded. *)
Definition boot (file : option json) (uuids clock : nat -> string) : outcome server :=
  match _load_admin_knowledge file uuids clock with
  | Done es => Done (mk_server es (seq 0 (length es)) file)
  | Raised => Raised
  | Untyped => Untyped
  end.

(** ** The upload route *)

Inductive upload_reply :=
| Uploaded (e : entry) (extracted_preview : string)
| Refused (status : nat) (error : string).

(** [x or dflt] for a form field. *)
Definition form_or (x : option string) (dflt : string) : string :=
  match x with
  | Some s => if nonempty s then s else dflt
  | None => dflt
  end.

(** [upload_pdf_knowledge] from the point where the text of the PDF has
    been extracted; [filename] is the stored name and [stem] is
    [os.path.splitext(filename)[0]]. *)
Definition upload_pdf_knowledge (order : gset string -> list string)
    (authorized : bool) (filename stem extracted_text : string)
    (form_title form_kws : option string) (new_id now : string)
    (write_ok : bool) (srv : server) : upload_reply * server :=
  if negb authorized then (Refused 401 "Unauthorized", srv) else
  let extracted_text := remove_nul extracted_text in
  match upload_responses extracted_text with
  | None => (Refused 500 "Failed to upload PDF knowledge", srv)
  | Some [] =>
      (Refused 400 "No selectable text found in PDF (likely scanned). Please upload a text-based PDF or provide a text file instead.", srv)
  | Some (first :: more) =>
      let responses := first :: more in
      let title := form_or form_title stem in
      let raw_keywords := form_or form_kws EmptyString in
      let keywords := upload_keywords order title raw_keywords extracted_text in
      match keywords with
      | [] => (Refused 400 "keywords is required (comma separated)", srv)
      | _ =>
          let entry := mk_entry new_id title keywords responses now (Some filename) in
          let objs := objects srv ++ [entry] in
          let entries := tier srv ++ [length (objects srv)] in
          let d := _save_admin_entries write_ok objs entries (disk srv) in
          if negb write_ok then
            (Refused 500 "Failed to save entry", mk_server objs (tier srv) d)
          else (Uploaded entry (take_str 200 first), mk_server objs entries d)
      end
  end.

(** ** The chat route and the statistics *)

(** What [/api/chat] answers: the reply with its source, or an error
    with its status.  The time stamp of the answer is left out. *)
Inductive chat_reply :=
| ChatOk (reply : string) (source : option source_meta)
| ChatError (status : nat) (error : string).

(** [chat], for the value [data] of [request.get_json()].  A value that
    is not a JSON object either fails the test for the key (400) or
    makes [data['message']] or the test itself raise, which the handler
    answers with 500; so does a message that is not a string, which has
    no [strip]. *)
Definition chat (ai : CollegeAI) (data : json) (rnd : nat) (now1 now2 : string)
  : chat_reply * CollegeAI :=
  if negb (truthy data) then (ChatError 400 "Message is required", ai) else
  match data with
  | JDict d =>
      match dict_lookup d "message" with
      | None => (ChatError 400 "Message is required", ai)
      | Some (JStr message) =>
          let user_message := strip message in
          if negb (nonempty user_message) then (ChatError 400 "Message cannot be empty", ai)
          else
            let '((text, source), ai') :=
              get_response_with_meta ai rnd now1 now2 user_message in
            (ChatOk text source, ai')
      | Some _ => (ChatError 500 "Internal server error", ai)
      end
  | JList l =>
      if existsb (fun x => match x with JStr s => String.eqb s "message" | _ => false end) l
      then (ChatError 500 "Internal server error", ai)
      else (ChatError 400 "Message is required", ai)
  | JStr s =>
      if str_in "message" s then (ChatError 500 "Internal server error", ai)
      else (ChatError 400 "Message is required", ai)
  | _ => (ChatError 500 "Internal server error", ai)
  end.

Definition turn_timestamp (t : turn) : string :=
  match t with UserTurn _ ts => ts | BotTurn _ ts => ts end.

(** [get_stats]: [total_conversations] and [last_activity]. *)
Definition get_stats (ai : CollegeAI) : nat * option string :=
  (length (conversation_history ai) / 2,
   option_map turn_timestamp (last (conversation_history ai))).

(** [clear_history] *)
Definition clear_history (ai : CollegeAI) : CollegeAI :=
  mk_ai (admin_knowledge ai) [].

(** A run of chat requests, each with its drawn number and its two
    readings of the clock: the replies in order and the object at the
    end. *)
Fixpoint chat_all (ai : CollegeAI) (requests : list (json * nat * string * string))
  : list chat_reply * CollegeAI :=
  match requests with
  | [] => ([], ai)
  | (data, rnd, now1, now2) :: rest =>
      let '(r, ai') := chat ai data rnd now1 now2 in
      let '(rs, ai'') := chat_all ai' rest in
      (r :: rs, ai'')
  end.

Definition is_ok (r : chat_reply) : bool :=
  match r with ChatOk _ _ => true | ChatError _ _ => false end.
(** * Properties *)

(** ** Strings *)

#[local] Arguments String.append !s1 s2 : simpl nomatch.

Lemma append_nil_r (s : string) : s +:+ EmptyString = s.
Proof. induction s as [|c s IH]; simpl; [reflexivity | now rewrite IH]. Qed.

Lemma append_assoc (a b c : string) : (a +:+ b) +:+ c = a +:+ (b +:+ c).
Proof. induction a as [|x a IH]; simpl; [reflexivity | now rewrite IH]. Qed.

Lemma length_append (a b : string) :
  String.length (a +:+ b) = String.length a + String.length b.
Proof. induction a as [|x a IH]; simpl; [reflexivity | now rewrite IH]. Qed.

Lemma lower_append (a b : string) : lower (a +:+ b) = lower a +:+ lower b.
Proof. induction a as [|x a IH]; simpl; [reflexivity | now rewrite IH]. Qed.

Lemma lower_char_idem (c : ascii) : lower_char (lower_char c) = lower_char c.
Proof. destruct c as [[] [] [] [] [] [] [] []]; reflexivity. Qed.

Lemma lower_idem (s : string) : lower (lower s) = lower s.
Proof.
  induction s as [|c s IH]; simpl; [reflexivity|].
  now rewrite lower_char_idem, IH.
Qed.

Lemma nonempty_true (s : string) : nonempty s = true <-> s <> EmptyString.
Proof. destruct s; simpl; split; congruence. Qed.

Lemma startswith_spec (s p : string) :
  startswith s p = true <-> exists b, s = p +:+ b.
Proof.
  revert s. induction p as [|a p IH]; intros s; simpl.
  - split; [intros _; now exists s | reflexivity].
  - destruct s as [|c s]; simpl.
    + split; [discriminate | intros [b Hb]; discriminate].
    + rewrite andb_true_iff, Ascii.eqb_eq, IH. split.
      * intros [-> [b ->]]. now exists b.
      * intros [b Hb]. injection Hb as -> ->. split; [reflexivity | now exists b].
Qed.

(** [str_in k s] holds exactly when [k] is a literal part of [s]. *)
Lemma str_in_spec (k s : string) :
  str_in k s = true <-> exists a b, s = a +:+ k +:+ b.
Proof.
  induction s as [|c s IH].
  - simpl. rewrite orb_false_r, startswith_spec. split.
    + intros [b Hb]. now exists EmptyString, b.
    + intros [a [b Hab]]. destruct a; [now exists b | discriminate].
  - cbn [str_in]. rewrite orb_true_iff, startswith_spec, IH. split.
    + intros [[b Hb] | [a [b Hab]]].
      * now exists EmptyString, b.
      * exists (String c a), b. simpl. now rewrite Hab.
    + intros [a [b Hab]]. destruct a as [|x a].
      * left. now exists b.
      * right. simpl in Hab. injection Hab as _ Hab. now exists a, b.
Qed.

(** A part of a string is a part of every string that extends it. *)
Lemma str_in_extend (k s a b : string) :
  str_in k s = true -> str_in k (a +:+ s +:+ b) = true.
Proof.
  rewrite !str_in_spec. intros [x [y ->]].
  exists (a +:+ x), (y +:+ b). now rewrite !append_assoc.
Qed.

Lemma append_neq_self (r s : string) : s <> EmptyString -> r +:+ s <> r.
Proof.
  intros Hs Heq. apply (f_equal String.length) in Heq.
  rewrite length_append in Heq. destruct s; [congruence | simpl in Heq; lia].
Qed.

(** ** The ranker *)

Section Ranker.
Context {A : Type} (score : A -> nat).

Lemma ranked_step (seen : list A) (st : option A * nat) (x : A) :
  ranked score seen st -> ranked score (seen ++ [x]) (rank_step score st x).
Proof.
  destruct st as [[e|] s]; unfold rank_step; simpl.
  - intros (-> & Hpos & l1 & l2 & -> & H1 & H2).
    destruct (Nat.ltb_spec (score e) (score x)) as [Hlt | Hge]; simpl.
    + repeat split; [lia|]. exists (l1 ++ e :: l2), []. repeat split.
      * apply Forall_app. split.
        -- eapply List.Forall_impl; [|exact H1]. simpl. intros; lia.
        -- constructor; [lia|]. eapply List.Forall_impl; [|exact H2]. simpl. intros; lia.
      * constructor.
    + repeat split; [assumption|]. exists l1, (l2 ++ [x]). repeat split.
      * now rewrite <- app_assoc.
      * assumption.
      * apply Forall_app. split; [assumption | constructor; [lia | constructor]].
  - intros (-> & H0).
    destruct (Nat.ltb_spec 0 (score x)) as [Hlt | Hge]; simpl.
    + repeat split; [assumption|]. exists seen, []. repeat split.
      * eapply List.Forall_impl; [|exact H0]. simpl. intros; lia.
      * constructor.
    + split; [reflexivity|]. apply Forall_app. split; [assumption|].
      constructor; [lia | constructor].
Qed.

Lemma ranked_fold (l seen : list A) (st : option A * nat) :
  ranked score seen st -> ranked score (seen ++ l) (fold_left (rank_step score) l st).
Proof.
  revert seen st. induction l as [|x l IH]; intros seen st H; simpl.
  - now rewrite app_nil_r.
  - replace (seen ++ x :: l) with ((seen ++ [x]) ++ l) by now rewrite <- app_assoc.
    apply IH, ranked_step, H.
Qed.

Lemma rank_ranked (l : list A) : ranked score l (rank score l).
Proof.
  unfold rank. apply (ranked_fold l [] (None, 0)). simpl.
  split; [reflexivity | constructor].
Qed.

(** The loop returns nothing when every score is zero, and otherwise
    the first entry that reaches the greatest score. *)
Lemma rank_spec (l : list A) :
  (rank score l = (None, 0) /\ Forall (fun x => score x = 0) l) \/
  (exists l1 e l2, l = l1 ++ e :: l2 /\ 0 < score e /\
     Forall (fun x => score x < score e) l1 /\
     Forall (fun x => score x <= score e) l2 /\
     rank score l = (Some e, score e)).
Proof.
  pose proof (rank_ranked l) as H. destruct (rank score l) as [[e|] s]; simpl in H.
  - right. destruct H as (-> & Hpos & l1 & l2 & -> & H1 & H2).
    exists l1, e, l2. repeat split; assumption.
  - left. destruct H as (-> & H0). now split.
Qed.

Lemma rank_some_positive (l : list A) :
  (exists x, In x l /\ 0 < score x) ->
  exists l1 e l2, l = l1 ++ e :: l2 /\ 0 < score e /\
     Forall (fun x => score x < score e) l1 /\
     Forall (fun x => score x <= score e) l2 /\
     rank score l = (Some e, score e).
Proof.
  intros [x [Hin Hpos]]. destruct (rank_spec l) as [[_ H0] | H]; [|exact H].
  rewrite List.Forall_forall in H0. specialize (H0 x Hin). lia.
Qed.
End Ranker.

(** C4. The ranking loop compares with a strict [>] in the order of the
    list: in the admin tier and in the built-in table alike, it selects
    nothing when every score is zero, and otherwise the earliest of the
    entries that have the greatest score, which is then positive. *)
Theorem ranker_first_strict_max (tier : list entry) (kb : list (string * category))
    (user_message : string) :
  let admin_score := _score_entry_match (lower user_message) (token_set user_message) in
  let cat_score := builtin_score (lower user_message) in
  ((rank_admin tier user_message = (None, 0) /\
    Forall (fun e => admin_score e = 0) tier) \/
   (exists l1 e l2, tier = l1 ++ e :: l2 /\ 0 < admin_score e /\
      Forall (fun x => admin_score x < admin_score e) l1 /\
      Forall (fun x => admin_score x <= admin_score e) l2 /\
      rank_admin tier user_message = (Some e, admin_score e))) /\
  ((rank_builtin kb user_message = (None, 0) /\
    Forall (fun c => cat_score c = 0) kb) \/
   (exists l1 c l2, kb = l1 ++ c :: l2 /\ 0 < cat_score c /\
      Forall (fun x => cat_score x < cat_score c) l1 /\
      Forall (fun x => cat_score x <= cat_score c) l2 /\
      rank_builtin kb user_message = (Some c, cat_score c))).
Proof.
  intros admin_score cat_score. split.
  - apply (rank_spec admin_score tier).
  - apply (rank_spec cat_score kb).
Qed.

(** Two entries with the same greatest score: the earlier one is ranked
    first; a tier that scores nothing ranks nothing. *)
Example ranker_tie_break :
  let e1 := mk_entry "1" "First" ["hours"] ["nine to five"] "t" None in
  let e2 := mk_entry "2" "Other" ["hours"] ["ten to four"] "t" None in
  rank_admin [e1; e2] "hours" = (Some e1, 4) /\
  rank_admin [e2; e1] "hours" = (Some e2, 4) /\
  rank_admin [e1; e2] "asdkjasjkd" = (None, 0).
Proof. vm_compute. repeat split. Qed.

(** ** The response selector *)

Lemma kb_lookup_in (kb : list (string * category)) (name : string) (c : category) :
  In (name, c) kb -> exists data, kb_lookup kb name = Some data.
Proof.
  induction kb as [|[n d] kb IH]; simpl; [contradiction|].
  intros [Heq | Hin].
  - injection Heq as -> ->. rewrite String.eqb_refl. now exists c.
  - destruct (String.eqb n name); [now exists d | now apply IH].
Qed.

Lemma rank_in {A : Type} (score : A -> nat) (l : list A) (e : A) (s : nat) :
  rank score l = (Some e, s) -> In e l /\ s = score e /\ 0 < s.
Proof.
  intros H. destruct (rank_spec score l) as [[H0 _] | (l1 & x & l2 & -> & Hpos & _ & _ & Hr)].
  - congruence.
  - rewrite Hr in H. injection H as -> <-. repeat split; [|assumption].
    apply in_or_app. right. now left.
Qed.

(** The text returned is the personalization of the branch taken. *)
Lemma response_text_branch (kb : list (string * category)) (tier : list entry)
    (rnd : nat) (user_message : string) :
  response_text kb tier rnd user_message =
  let r := chosen_response kb tier rnd user_message in
  match selected_branch kb tier user_message with
  | AdminMatch _ => personalize_admin user_message r
  | BuiltInMatch _ => personalize_builtin user_message r
  | DefaultFallback => r
  end.
Proof.
  unfold response_text, chosen_response, selected_branch, builtin_or_default,
    _get_default_response.
  destruct (admin_guard (rank_admin tier user_message)) as [best|]; [reflexivity|].
  destruct (rank_builtin kb user_message) as [[[name c]|] s] eqn:Hr; [|reflexivity].
  destruct (nonempty name && (0 <? s)); [|reflexivity].
  apply rank_in in Hr. destruct Hr as [Hin _].
  destruct (kb_lookup_in kb name c Hin) as [data ->]. reflexivity.
Qed.

Lemma admin_guard_some (r : option entry * nat) (best : entry) :
  admin_guard r = Some best <->
  exists s, r = (Some best, s) /\ 0 < s /\ responses best <> [].
Proof.
  destruct r as [[e|] s]; simpl.
  - destruct (Nat.ltb_spec 0 s) as [Hs|Hs]; simpl.
    + destruct (responses e) as [|x l] eqn:Hr; simpl.
      * split; [discriminate|]. intros (s' & Heq & _ & Hne). injection Heq as -> _. congruence.
      * split.
        -- intros [= ->]. exists s. rewrite Hr. repeat split; [assumption | discriminate].
        -- intros (s' & [= -> _] & _). reflexivity.
    + split; [discriminate|]. intros (s' & [= -> ->] & Hpos & _). lia.
  - split; [discriminate|]. intros (s' & Heq & _). discriminate.
Qed.

Lemma random_choice_in (rnd : nat) (l : list string) :
  l <> [] -> In (random_choice rnd l) l.
Proof.
  intros Hne. unfold random_choice. apply nth_In.
  apply Nat.mod_upper_bound. destruct l; [congruence | discriminate].
Qed.

Lemma get_response_text (ai : CollegeAI) (rnd : nat) (now1 now2 user_message : string) :
  fst (get_response ai rnd now1 now2 user_message) =
  response_text _load_knowledge_base (admin_knowledge ai) rnd user_message.
Proof. reflexivity. Qed.

(** [get_response_with_meta] returns the text of [get_response]. *)
Lemma get_response_with_meta_text (ai : CollegeAI) (rnd : nat)
    (now1 now2 user_message : string) :
  fst (fst (get_response_with_meta ai rnd now1 now2 user_message)) =
  fst (get_response ai rnd now1 now2 user_message).
Proof.
  unfold get_response_with_meta, get_response, response_text.
  destruct (admin_guard (rank_admin (admin_knowledge ai) user_message)); reflexivity.
Qed.

(** With no admin entry scoring above zero the admin branch is not
    taken. *)
Lemma no_admin_match (kb : list (string * category)) (tier : list entry)
    (rnd : nat) (user_message : string) :
  Forall (fun e => _score_entry_match (lower user_message) (token_set user_message) e = 0)
         tier ->
  response_text kb tier rnd user_message = builtin_or_default kb rnd user_message.
Proof.
  intros H0. unfold response_text, rank_admin.
  destruct (rank_spec (_score_entry_match (lower user_message) (token_set user_message)) tier)
    as [[-> _] | (l1 & e & l2 & -> & Hpos & _)]; [reflexivity|].
  apply Forall_app in H0. destruct H0 as [_ H0]. inversion H0; subst. lia.
Qed.

(** C1, as the code has it.  When some admin entry scores above zero, the
    ranked entry is the first of those with the greatest score; if it
    has a response, [get_response] and [get_response_with_meta] return
    one of its responses (personalized) and the built-in table is not
    consulted, whatever it would score; if it has no response, both fall
    through to the built-in tier. *)
Theorem admin_tier_precedence (ai : CollegeAI) (rnd : nat)
    (now1 now2 user_message : string) :
  let tier := admin_knowledge ai in
  let sc := _score_entry_match (lower user_message) (token_set user_message) in
  (exists e, In e tier /\ 0 < sc e) ->
  exists l1 best l2,
    tier = l1 ++ best :: l2 /\ 0 < sc best /\
    Forall (fun x => sc x < sc best) l1 /\
    Forall (fun x => sc x <= sc best) l2 /\
    (responses best <> [] ->
       exists r, In r (responses best) /\
         fst (get_response ai rnd now1 now2 user_message) =
           personalize_admin user_message r /\
         fst (get_response_with_meta ai rnd now1 now2 user_message) =
           (personalize_admin user_message r,
            Some (mk_source "admin" (id best) (title best) (source_pdf best)))) /\
    (responses best = [] ->
       fst (get_response ai rnd now1 now2 user_message) =
         builtin_or_default _load_knowledge_base rnd user_message /\
       fst (get_response_with_meta ai rnd now1 now2 user_message) =
         (builtin_or_default _load_knowledge_base rnd user_message, None)).
Proof.
  intros tier sc Hex.
  destruct (rank_some_positive sc tier Hex) as (l1 & best & l2 & Ht & Hpos & H1 & H2 & Hr).
  exists l1, best, l2. do 4 (split; [assumption|]). split.
  - intros Hne. exists (random_choice rnd (responses best)).
    assert (Hg : admin_guard (rank_admin tier user_message) = Some best).
    { apply admin_guard_some. exists (sc best). repeat split; assumption. }
    split; [now apply random_choice_in|].
    unfold get_response_with_meta, get_response, response_text. fold tier.
    rewrite Hg. split; reflexivity.
  - intros Hnil.
    assert (Hg : admin_guard (rank_admin tier user_message) = None).
    { unfold rank_admin. fold sc. rewrite Hr. simpl. rewrite Hnil. simpl.
      now rewrite andb_false_r. }
    unfold get_response_with_meta, get_response, response_text. fold tier.
    rewrite Hg. split; reflexivity.
Qed.

Lemma admin_tier_precedence_witness :
  let best := mk_entry "e1" "Library" ["library"] ["Open nine to five."] "t0" None in
  exists r, In r (responses best) /\
    fst (get_response (mk_ai [best] []) 0 "t1" "t2" "library") = personalize_admin "library" r.
Proof.
  intros best.
  destruct (admin_tier_precedence (mk_ai [best] []) 0 "t1" "t2" "library")
    as (l1 & b & l2 & Ht & _ & _ & _ & Hsome & _).
  - exists best. split; [now left | vm_compute; lia].
  - destruct l1 as [|x l1]; [|destruct l1; discriminate].
    injection Ht as <- _.
    destruct Hsome as (r & Hin & Hr & _); [discriminate|].
    exists r. split; assumption.
Defined.

(** The claim C1 fails where the best admin entry has no response, as an
    entry loaded from a file without responses has: the entry scores 4
    on the query, and the reply is a response of the built-in category
    [library]. *)
Lemma admin_tier_precedence_counterexample :
  let e := mk_entry "e1" "Custom" ["library"] [] "t0" None in
  let ai := mk_ai [e] [] in
  _score_entry_match (lower "library") (token_set "library") e = 4 /\
  In (fst (get_response ai 0 "t1" "t2" "library")) (cat_responses kb_library) /\
  ~ In (fst (get_response ai 0 "t1" "t2" "library")) (responses e) /\
  snd (fst (get_response_with_meta ai 0 "t1" "t2" "library")) = None.
Proof.
  intros e ai. split; [vm_compute; reflexivity|]. split.
  - left. vm_compute. reflexivity.
  - split; [intros H; exact H|]. vm_compute. reflexivity.
Qed.

(** C3, as the code has it.  A query without ['?'] gets the chosen
    response unchanged in every branch.  In the admin branch the
    follow-up is added, once, exactly when the query has a ['?'], the
    response is not empty and its trimmed text does not end in ['?'].
    In the built-in branch it is added, once, when the query has a
    ['?'] and the trimmed response does not end in ['?'].  In the default
    branch the response is returned as drawn. *)
Theorem personalization_by_branch (ai : CollegeAI) (rnd : nat)
    (now1 now2 user_message : string) :
  let kb := _load_knowledge_base in
  let r := chosen_response kb (admin_knowledge ai) rnd user_message in
  let out := fst (get_response ai rnd now1 now2 user_message) in
  fst (fst (get_response_with_meta ai rnd now1 now2 user_message)) = out /\
  (has_qmark user_message = false -> out = r) /\
  match selected_branch kb (admin_knowledge ai) user_message with
  | AdminMatch _ =>
      (out = r +:+ followup <->
       has_qmark user_message = true /\ r <> EmptyString /\
       endswith (strip r) "?" = false) /\
      (out = r \/ out = r +:+ followup)
  | BuiltInMatch _ =>
      has_qmark user_message = true -> endswith (strip r) "?" = false ->
      out = r +:+ followup
  | DefaultFallback => out = r
  end.
Proof.
  intros kb r out. split; [apply get_response_with_meta_text|].
  assert (Hout : out = response_text kb (admin_knowledge ai) rnd user_message) by reflexivity.
  rewrite response_text_branch in Hout. fold r in Hout. cbv zeta in Hout.
  assert (Hf : r +:+ followup <> r) by (apply append_neq_self; discriminate).
  split.
  - intros Hq. rewrite Hout.
    destruct (selected_branch kb (admin_knowledge ai) user_message);
      unfold personalize_admin, personalize_builtin; try rewrite Hq; reflexivity.
  - destruct (selected_branch kb (admin_knowledge ai) user_message).
    + unfold personalize_admin in Hout.
      destruct (has_qmark user_message); simpl in Hout.
      * destruct (nonempty r) eqn:Hn; simpl in Hout.
        -- destruct (endswith (strip r) "?"); simpl in Hout; rewrite Hout.
           ++ split; [|now left]. split; [intros H; now symmetry in H | intros (_ & _ & H); discriminate].
           ++ split; [|now right]. split; [|reflexivity]. intros _.
              repeat split. now apply nonempty_true.
        -- rewrite Hout. split; [|now left]. split; [intros H; now symmetry in H|].
           intros (_ & Hne & _). apply nonempty_true in Hne. congruence.
      * rewrite Hout. split; [|now left].
        split; [intros H; now symmetry in H | intros (H & _); discriminate].
    + intros Hq _. rewrite Hout. unfold personalize_builtin. now rewrite Hq.
    + exact Hout.
Qed.

Lemma personalization_by_branch_witness :
  let e := mk_entry "e1" "Library" ["library"; "hours"] ["Open nine to five."] "t0" None in
  fst (get_response (mk_ai [e] []) 0 "t1" "t2" "What are the library hours?") =
    "Open nine to five." +:+ followup /\
  fst (get_response (mk_ai [e] []) 0 "t1" "t2" "library hours") = "Open nine to five." /\
  fst (get_response (mk_ai [] []) 0 "t1" "t2" "library?") =
    random_choice 0 (cat_responses kb_library) +:+ followup.
Proof.
  intros e. split; [|split].
  - pose proof (personalization_by_branch (mk_ai [e] []) 0 "t1" "t2"
                  "What are the library hours?") as (_ & _ & H).
    assert (Hb : selected_branch _load_knowledge_base [e] "What are the library hours?"
                 = AdminMatch e) by (vm_compute; reflexivity).
    simpl admin_knowledge in H. rewrite Hb in H. destruct H as [H _].
    apply H. split; [vm_compute; reflexivity|].
    split; [vm_compute; discriminate | vm_compute; reflexivity].
  - pose proof (personalization_by_branch (mk_ai [e] []) 0 "t1" "t2" "library hours")
      as (_ & H & _).
    apply H. vm_compute. reflexivity.
  - pose proof (personalization_by_branch (mk_ai [] []) 0 "t1" "t2" "library?") as (_ & _ & H).
    assert (Hb : selected_branch _load_knowledge_base [] "library?" = BuiltInMatch kb_library)
      by (vm_compute; reflexivity).
    simpl admin_knowledge in H. rewrite Hb in H.
    apply H; vm_compute; reflexivity.
Defined.

(** The claim C3 fails in the default branch: the query has a ['?'], the
    default response drawn does not end in ['?'], and the reply is that
    response without the follow-up.  It fails in the built-in branch as
    well, where a response that ends in ['?'] gets the follow-up. *)
Lemma personalization_counterexample :
  let r := random_choice 0 default_responses in
  has_qmark "asdkjasjkd?" = true /\
  endswith (strip r) "?" = false /\
  fst (get_response (mk_ai [] []) 0 "t1" "t2" "asdkjasjkd?") = r /\
  r <> r +:+ followup /\
  let b := random_choice 0 (cat_responses kb_admission) in
  endswith (strip b) "?" = true /\
  fst (get_response (mk_ai [] []) 0 "t1" "t2" "admission?") = b +:+ followup.
Proof.
  intros r. repeat split; try (vm_compute; reflexivity).
  intros H. symmetry in H. revert H. apply append_neq_self. discriminate.
Qed.

(** ** The scorer *)

Lemma findall_alnum_sep (a b cur : string) (c : ascii) :
  is_alnum c = false ->
  findall_alnum (a +:+ String c b) cur =
  findall_alnum a cur ++ findall_alnum b EmptyString.
Proof.
  intros Hc. revert cur. induction a as [|x a IH]; intros cur; simpl.
  - now rewrite Hc.
  - destruct (is_alnum x); [apply IH|]. now rewrite IH, app_assoc.
Qed.

(** The tokens of two texts joined by [" \n "] are the tokens of the one
    followed by the tokens of the other. *)
Lemma tokenize_sample (r1 r2 : string) :
  _tokenize (r1 +:+ sample_sep +:+ r2) = _tokenize r1 ++ _tokenize r2.
Proof.
  unfold _tokenize. rewrite !lower_append.
  change (lower sample_sep) with (String " " (String (ascii_of_nat 10) (String " " EmptyString))).
  simpl String.append.
  rewrite findall_alnum_sep by reflexivity. simpl findall_alnum at 2.
  apply List.filter_app.
Qed.

Lemma token_set_sample (rs : list string) :
  token_set (join sample_sep (firstn 2 rs)) = ⋃ (map token_set (firstn 2 rs)).
Proof.
  destruct rs as [|r1 [|r2 rs]].
  - reflexivity.
  - simpl. now rewrite union_empty_r_L.
  - change (join sample_sep (firstn 2 (r1 :: r2 :: rs))) with (r1 +:+ sample_sep +:+ r2).
    change (⋃ (map token_set (firstn 2 (r1 :: r2 :: rs))))
      with (token_set r1 ∪ (token_set r2 ∪ ∅)).
    unfold token_set. rewrite tokenize_sample, list_to_set_app_L.
    now rewrite union_empty_r_L.
Qed.

Lemma fold_union (f : string -> gset string) (l : list string) (X : gset string) :
  fold_left (fun acc k => acc ∪ f k) l X = X ∪ ⋃ (map f l).
Proof.
  revert X. induction l as [|k l IH]; intros X; simpl.
  - now rewrite union_empty_r_L.
  - rewrite IH. symmetry. apply (assoc_L (∪)).
Qed.

Lemma keyword_tokens_union (kws : list string) :
  keyword_tokens kws = ⋃ (map token_set kws).
Proof. unfold keyword_tokens. now rewrite fold_union, union_empty_l_L. Qed.

(** A keyword counts exactly when it is not empty and is a literal part
    of the lowercased query. *)
Lemma keyword_hit_iff (k user_message_lower : string) :
  nonempty k && str_in k user_message_lower = true <->
  k <> EmptyString /\ exists a b, user_message_lower = a +:+ k +:+ b.
Proof. now rewrite andb_true_iff, nonempty_true, str_in_spec. Qed.

(** The admin score is the sum of four signals:
    3 points for every keyword that is not the empty string and is a
    literal part of the lowercased query (no cap), plus the number of
    query tokens among the tokens of all keywords, capped at 4, plus the
    number among the title tokens, capped at 2, plus the number among
    the tokens of the first two responses, capped at 5; an overlap with
    the keyword tokens above 4 contributes 4. *)
Theorem score_four_signals (user_message : string) (e : entry) :
  let user_tokens := token_set user_message in
  let hits := List.filter (fun k => nonempty k && str_in k (lower user_message))
                          (keywords e) in
  let kw_overlap := size (user_tokens ∩ ⋃ (map token_set (keywords e))) in
  let title_overlap := size (user_tokens ∩ token_set (title e)) in
  let resp_overlap :=
    size (user_tokens ∩ ⋃ (map token_set (firstn 2 (responses e)))) in
  _score_entry_match (lower user_message) user_tokens e =
    3 * length hits + Nat.min kw_overlap 4 + Nat.min title_overlap 2
    + Nat.min resp_overlap 5 /\
  (4 < kw_overlap ->
   _score_entry_match (lower user_message) user_tokens e =
     3 * length hits + 4 + Nat.min title_overlap 2 + Nat.min resp_overlap 5).
Proof.
  intros user_tokens hits kw_overlap title_overlap resp_overlap.
  assert (Heq : _score_entry_match (lower user_message) user_tokens e =
                3 * length hits + Nat.min kw_overlap 4 + Nat.min title_overlap 2
                + Nat.min resp_overlap 5).
  { unfold _score_entry_match, keyword_hits.
    rewrite keyword_tokens_union, token_set_sample.
    fold hits kw_overlap title_overlap resp_overlap. lia. }
  split; [exact Heq|]. intros Hcap. rewrite Heq. lia.
Qed.

Lemma score_four_signals_witness :
  let e := mk_entry "e1" "Fees" ["tuition fee payment plan deadline"]
                    ["Ask the bursar."] "t0" None in
  _score_entry_match (lower "Tuition fee payment plan deadline")
                     (token_set "Tuition fee payment plan deadline") e = 7.
Proof.
  intros e.
  destruct (score_four_signals "Tuition fee payment plan deadline" e) as [_ H].
  rewrite H; [vm_compute; reflexivity | vm_compute; lia].
Defined.

(** An entry whose keyword list holds the empty string, which
    [add_knowledge] and the loader both admit: the empty string is a
    literal part of every query, so the score as specified counts 3
    points for it, and the code, which tests [k and ...], counts none. *)
Lemma score_four_signals_counterexample :
  let e := mk_entry "e1" "Custom" [""] ["x"] "t0" None in
  (exists a b, lower "hello" = a +:+ "" +:+ b) /\
  score_as_specified "hello" e = 3 /\
  _score_entry_match (lower "hello") (token_set "hello") e = 0.
Proof.
  intros e. split; [|split; vm_compute; reflexivity].
  exists EmptyString, (lower "hello"). reflexivity.
Qed.

Lemma filter_agree {A : Type} (f g : A -> bool) (l : list A) :
  (forall j y, l !! j = Some y -> f y = g y) -> List.filter f l = List.filter g l.
Proof.
  induction l as [|y l IH]; intros H; [reflexivity|].
  simpl. rewrite (H 0 y) by reflexivity.
  rewrite IH; [reflexivity|]. intros j z Hz. apply (H (S j)). exact Hz.
Qed.

(** Two tests that agree on a list except at one position, where only
    the second holds, count one apart. *)
Lemma filter_one_more {A : Type} (f g : A -> bool) (l : list A) (i : nat) (x : A) :
  l !! i = Some x -> f x = false -> g x = true ->
  (forall j y, j <> i -> l !! j = Some y -> f y = g y) ->
  length (List.filter g l) = S (length (List.filter f l)).
Proof.
  revert i. induction l as [|y l IH]; intros i Hi Hf Hg Hother; [discriminate|].
  destruct i as [|i]; simpl in Hi.
  - injection Hi as ->. simpl. rewrite Hf, Hg. simpl. f_equal. f_equal.
    symmetry. apply filter_agree. intros j z Hz. apply (Hother (S j)); [lia | exact Hz].
  - simpl. rewrite <- (Hother 0 y) by (lia || reflexivity).
    assert (IH' : length (List.filter g l) = S (length (List.filter f l))).
    { apply (IH i); try assumption.
      intros j w Hj Hw. apply (Hother (S j)); [lia | exact Hw]. }
    destruct (f y); simpl; now rewrite IH'.
Qed.

(** Extend a query so that one more keyword of an entry, the one at
    position [i], becomes a literal part of the lowercased query, no
    other keyword of the entry becoming one, and the three token
    overlaps contributing as before: the score of the entry grows by
    exactly 3. *)
Theorem keyword_hit_adds_three (e : entry) (q q' a b k : string) (i : nat) :
  let overlap (x : string) (toks : gset string) := size (token_set x ∩ toks) in
  q' = a +:+ q +:+ b ->
  keywords e !! i = Some k ->
  k <> EmptyString ->
  str_in k (lower q) = false ->
  str_in k (lower q') = true ->
  (forall j k', j <> i -> keywords e !! j = Some k' ->
     str_in k' (lower q) = false -> str_in k' (lower q') = false) ->
  Nat.min (overlap q' (keyword_tokens (keywords e))) 4 =
    Nat.min (overlap q (keyword_tokens (keywords e))) 4 ->
  Nat.min (overlap q' (token_set (title e))) 2 =
    Nat.min (overlap q (token_set (title e))) 2 ->
  Nat.min (overlap q' (token_set (join sample_sep (firstn 2 (responses e))))) 5 =
    Nat.min (overlap q (token_set (join sample_sep (firstn 2 (responses e))))) 5 ->
  _score_entry_match (lower q') (token_set q') e =
    _score_entry_match (lower q) (token_set q) e + 3 /\
  _score_entry_match (lower q) (token_set q) e <
    _score_entry_match (lower q') (token_set q') e.
Proof.
  intros overlap Hext Hi Hk Hmiss Hhit Hother Hkw Htitle Hresp.
  assert (Hhits : keyword_hits (lower q') (keywords e) =
                  S (keyword_hits (lower q) (keywords e))).
  { unfold keyword_hits.
    apply (filter_one_more _ _ (keywords e) i k Hi).
    - now rewrite Hmiss, andb_false_r.
    - rewrite Hhit, andb_true_r. now apply nonempty_true.
    - intros j k' Hj Hk'. f_equal.
      destruct (str_in k' (lower q)) eqn:Hq.
      + symmetry. rewrite Hext, !lower_append. now apply str_in_extend.
      + symmetry. now apply (Hother j k'). }
  assert (Heq : _score_entry_match (lower q') (token_set q') e =
                _score_entry_match (lower q) (token_set q) e + 3).
  { unfold _score_entry_match. unfold overlap in Hkw, Htitle, Hresp.
    rewrite Hhits, Hkw, Htitle, Hresp. lia. }
  split; [exact Heq | lia].
Qed.


Lemma keyword_hit_adds_three_witness :
  let e := mk_entry "e1" "Desk" ["library"; "who"] ["Ask at the desk."] "t0" None in
  _score_entry_match (lower "library") (token_set "library") e = 4 /\
  _score_entry_match (lower "library who") (token_set "library who") e = 7.
Proof.
  intros e.
  assert (H4 : _score_entry_match (lower "library") (token_set "library") e = 4)
    by (vm_compute; reflexivity).
  split; [exact H4|].
  destruct (keyword_hit_adds_three e "library" "library who" "" " who" "who" 1) as [H _].
  - reflexivity.
  - reflexivity.
  - discriminate.
  - vm_compute; reflexivity.
  - vm_compute; reflexivity.
  - intros j k' Hj Hk'. destruct j as [|[|j]].
    + injection Hk' as <-. vm_compute; discriminate.
    + congruence.
    + simpl in Hk'; discriminate Hk'.
  - vm_compute; reflexivity.
  - vm_compute; reflexivity.
  - vm_compute; reflexivity.
  - rewrite H, H4; reflexivity.
Defined.

(** ** Slices and trimming *)

Lemma take_drop_str (n : nat) (s : string) : take_str n s +:+ drop_str n s = s.
Proof.
  revert s. induction n as [|n IH]; intros s; [reflexivity|].
  destruct s as [|c s]; [reflexivity|]. simpl. now rewrite IH.
Qed.

Lemma length_take_str (n : nat) (s : string) :
  String.length (take_str n s) = Nat.min n (String.length s).
Proof.
  revert s. induction n as [|n IH]; intros s; [reflexivity|].
  destruct s as [|c s]; [reflexivity|]. simpl. now rewrite IH.
Qed.

Lemma length_drop_str (n : nat) (s : string) :
  String.length (drop_str n s) = String.length s - n.
Proof.
  revert s. induction n as [|n IH]; intros s; [simpl; lia|].
  destruct s as [|c s]; [reflexivity|]. simpl. now rewrite IH.
Qed.

Lemma drop_drop_str (n m : nat) (s : string) :
  drop_str m (drop_str n s) = drop_str (n + m) s.
Proof.
  revert s. induction n as [|n IH]; intros s; [reflexivity|].
  destruct s as [|c s]; [now destruct m|]. simpl. apply IH.
Qed.

Lemma drop_str_all (n : nat) (s : string) :
  String.length s <= n -> drop_str n s = EmptyString.
Proof.
  revert s. induction n as [|n IH]; intros s Hn.
  - destruct s; [reflexivity | simpl in Hn; lia].
  - destruct s as [|c s]; [reflexivity|]. simpl. apply IH. simpl in Hn. lia.
Qed.

Lemma length_zero_empty (s : string) : String.length s = 0 -> s = EmptyString.
Proof. destruct s; [reflexivity | discriminate]. Qed.

Lemma rstrip_nonspace (c : ascii) (s : string) :
  is_space c = false -> rstrip (String c s) = String c (rstrip s).
Proof. intros Hc. simpl. rewrite Hc. now destruct (rstrip s). Qed.

Lemma rstrip_idem (s : string) : rstrip (rstrip s) = rstrip s.
Proof.
  induction s as [|c s IH]; [reflexivity|].
  simpl. destruct (rstrip s) as [|d r] eqn:Hr.
  - destruct (is_space c) eqn:Hc; [reflexivity|]. simpl. now rewrite Hc.
  - change (rstrip (String c (String d r))) with
      (match rstrip (String d r) with
       | EmptyString => if is_space c then EmptyString else String c EmptyString
       | String x y => String c (String x y)
       end).
    now rewrite IH.
Qed.

Lemma lstrip_head (s : string) :
  lstrip s = EmptyString \/
  exists c t, lstrip s = String c t /\ is_space c = false.
Proof.
  induction s as [|c s IH]; [now left|].
  simpl. destruct (is_space c) eqn:Hc; [exact IH|].
  right. now exists c, s.
Qed.

(** Trimming a trimmed text changes nothing. *)
Lemma strip_idem (s : string) : strip (strip s) = strip s.
Proof.
  unfold strip. destruct (lstrip_head s) as [-> | (c & t & -> & Hc)]; [reflexivity|].
  rewrite (rstrip_nonspace c t Hc). simpl lstrip. rewrite Hc.
  rewrite <- (rstrip_nonspace c t Hc). apply rstrip_idem.
Qed.



(** ** The chunker *)

Lemma chunks_of_loop (size : nat) (para : string) :
  0 < size ->
  forall fuel start segments,
    String.length para - start <= fuel ->
    exists new,
      chunk_loop fuel para size start segments = Some (segments ++ new) /\
      fold_right String.append EmptyString new = drop_str start para /\
      Forall (fun s => 0 < String.length s <= size) new /\
      Forall (fun s => String.length s = size) (removelast new) /\
      (String.length para <= start -> new = []).
Proof.
  intros Hsize. induction fuel as [|fuel IH]; intros start segments Hfuel.
  - exists []. assert (Hge : String.length para <= start) by lia.
    simpl. destruct (Nat.ltb_spec start (String.length para)); [lia|].
    rewrite app_nil_r, drop_str_all by assumption.
    repeat split; constructor.
  - destruct (Nat.ltb_spec start (String.length para)) as [Hlt | Hge].
    + destruct (IH (start + size) (segments ++ [slice para start (start + size)]))
        as (new & Hrun & Hcat & Hlen & Hfull & Hnil); [lia|].
      exists (slice para start (start + size) :: new).
      assert (Hseg : slice para start (start + size) = take_str size (drop_str start para)).
      { unfold slice. f_equal. lia. }
      assert (Hseglen : String.length (slice para start (start + size)) =
                        Nat.min size (String.length para - start)).
      { now rewrite Hseg, length_take_str, length_drop_str. }
      split; [|split; [|split; [|split]]].
      * simpl. destruct (Nat.ltb_spec start (String.length para)); [|lia].
        rewrite Hrun. now rewrite <- app_assoc.
      * simpl. rewrite Hcat, Hseg, <- drop_drop_str. apply take_drop_str.
      * constructor; [lia | exact Hlen].
      * destruct new as [|s new']; [constructor|].
        change (removelast (slice para start (start + size) :: s :: new'))
          with (slice para start (start + size) :: removelast (s :: new')).
        constructor; [|exact Hfull].
        destruct (Nat.le_gt_cases (String.length para) (start + size)) as [Hle | Hgt];
          [specialize (Hnil Hle); discriminate | lia].
      * intros Hle. lia.
    + exists []. simpl. destruct (Nat.ltb_spec start (String.length para)); [lia|].
      rewrite app_nil_r, drop_str_all by assumption.
      repeat split; constructor.
Qed.

Lemma chunks_of_paragraphs (size : nat) (paras segments : list string) :
  0 < size ->
  exists segss,
    chunk_paragraphs paras size segments = Some (segments ++ concat segss) /\
    Forall2 (chunks_of size) paras segss.
Proof.
  intros Hsize. revert segments. induction paras as [|para paras IH]; intros segments.
  - exists []. simpl. rewrite app_nil_r. split; [reflexivity | constructor].
  - destruct (chunks_of_loop size para Hsize (String.length para) 0 segments)
      as (new & Hrun & Hcat & Hlen & Hfull & _); [lia|].
    destruct (IH (segments ++ new)) as (segss & Hrest & Hall).
    exists (new :: segss). split.
    + simpl. rewrite Hrun, Hrest. now rewrite <- app_assoc.
    + constructor; [|exact Hall]. repeat split; assumption.
Qed.

Lemma filter_nonempty_chunks (size : nat) (paras : list string) (segss : list (list string)) :
  Forall2 (chunks_of size) paras segss ->
  List.filter nonempty (concat segss) = concat segss.
Proof.
  intros H. induction H as [|para segs paras segss (_ & Hlen & _) _ IH]; [reflexivity|].
  simpl. rewrite List.filter_app, IH. f_equal.
  clear -Hlen. induction Hlen as [|s l Hs _ IHl]; [reflexivity|].
  simpl. destruct s; [simpl in Hs; lia|]. simpl. now rewrite IHl.
Qed.

(** The paragraphs the chunker slices are trimmed and not empty. *)
Lemma paragraphs_trimmed (text : string) :
  Forall (fun p => p <> EmptyString /\ strip p = p) (paragraphs text).
Proof.
  unfold paragraphs. apply List.Forall_forall. intros p Hp.
  apply in_map_iff in Hp. destruct Hp as (x & <- & Hx).
  apply filter_In in Hx. destruct Hx as [_ Hx].
  split; [now apply nonempty_true | apply strip_idem].
Qed.

(** For every chunk size above zero the chunker ends, and no character
    of a paragraph is lost, repeated or moved: the segments of each
    paragraph, put end to end in order, are the paragraph; every segment
    has between 1 and [size] characters, and every segment but the last
    of its paragraph has exactly [size]. *)
Theorem chunk_text_reconstructs (text : string) (size : nat) :
  0 < size ->
  exists segss,
    chunk_text text size = Some (concat segss) /\
    Forall2 (chunks_of size) (paragraphs text) segss.
Proof.
  intros Hsize.
  destruct (chunks_of_paragraphs size (paragraphs text) [] Hsize) as (segss & Hrun & Hall).
  exists segss. split; [|exact Hall].
  unfold chunk_text. rewrite Hrun. simpl.
  now rewrite (filter_nonempty_chunks size (paragraphs text) segss Hall).
Qed.

Lemma chunk_text_reconstructs_witness :
  exists segss,
    chunk_text ("  abcdefghij " +:+ nl +:+ " " +:+ nl +:+ "klm") 4 = Some (concat segss) /\
    Forall2 (chunks_of 4) ["abcdefghij"; "klm"] segss.
Proof.
  destruct (chunk_text_reconstructs ("  abcdefghij " +:+ nl +:+ " " +:+ nl +:+ "klm") 4)
    as (segss & H1 & H2); [lia|].
  exists segss. split; [exact H1 | exact H2].
Defined.

(** What the upload keeps of a document: at most 10 segments, the first
    ones of the paragraphs' segments in document order, each of 1 to 800
    characters; the paragraphs are the trimmed, non-empty pieces between
    blank lines. *)
Theorem upload_responses_capped (extracted_text : string) :
  exists segss,
    upload_responses extracted_text = Some (firstn 10 (concat segss)) /\
    Forall2 (chunks_of 800) (paragraphs extracted_text) segss /\
    Forall (fun p => p <> EmptyString /\ strip p = p) (paragraphs extracted_text) /\
    length (firstn 10 (concat segss)) <= 10 /\
    Forall (fun s => 0 < String.length s <= 800) (firstn 10 (concat segss)).
Proof.
  destruct (chunks_of_paragraphs 800 (paragraphs extracted_text) []) as (segss & Hrun & Hall);
    [lia|].
  exists segss. split; [|split; [exact Hall | split; [apply paragraphs_trimmed | split]]].
  - unfold upload_responses, chunk_text. rewrite Hrun. simpl.
    now rewrite (filter_nonempty_chunks 800 (paragraphs extracted_text) segss Hall).
  - rewrite length_firstn. lia.
  - apply List.Forall_forall. intros s Hs.
    assert (Hin : In s (concat segss)).
    { rewrite <- (firstn_skipn 10 (concat segss)). apply in_or_app. now left. }
    apply in_concat in Hin. destruct Hin as (segs & Hsegs & Hin).
    clear -Hall Hsegs Hin. induction Hall as [|para l paras segss (_ & Hlen & _) _ IH];
      [contradiction|].
    destruct Hsegs as [-> | Hsegs]; [|now apply IH].
    rewrite List.Forall_forall in Hlen. now apply Hlen.
Qed.

(** The two-paragraph document of the ingestion round trip. *)
Example upload_responses_two_paragraphs :
  upload_responses ("Para one." +:+ nl +:+ nl +:+ "Para two.") =
  Some ["Para one."; "Para two."].
Proof. vm_compute. reflexivity. Qed.

(** ** Splitting at blank lines *)

Lemma last_nl_in_run_spec (s : string) (n : nat) :
  last_nl_in_run s = Some n ->
  1 <= n <= String.length s /\
  exists ws, take_str n s = ws +:+ nl /\ all_space ws = true.
Proof.
  revert n. induction s as [|c s IH]; intros n; [discriminate|].
  simpl. destruct (is_space c) eqn:Hc; [|discriminate].
  destruct (last_nl_in_run s) as [m|] eqn:Hm.
  - intros [= <-]. destruct (IH m eq_refl) as (Hm1 & ws & Hws & Hsp).
    split; [lia|]. exists (String c ws). simpl. rewrite Hws, Hc. now split.
  - destruct (is_nl c) eqn:Hn; [|discriminate]. intros [= <-].
    split; [lia|]. exists EmptyString. split; [|reflexivity].
    simpl. apply Ascii.eqb_eq in Hn. subst c. now destruct s.
Qed.

(** Where the pattern matches, it matches a blank gap: at least two
    characters, a line feed at either end, white space between. *)
Lemma match_blank_spec (s : string) (n : nat) :
  match_blank s = Some n ->
  2 <= n <= String.length s /\ blank_gap (take_str n s).
Proof.
  destruct s as [|c s]; [discriminate|]. simpl.
  destruct (is_nl c) eqn:Hn; [|discriminate].
  destruct (last_nl_in_run s) as [m|] eqn:Hm; [|discriminate].
  intros [= <-]. destruct (last_nl_in_run_spec s m Hm) as (Hm1 & ws & Hws & Hsp).
  split; [lia|]. exists ws. split; [|exact Hsp].
  simpl. rewrite Hws. apply Ascii.eqb_eq in Hn. now subst c.
Qed.

Lemma re_split_blank_weave (s : string) :
  forall skip cur, skip <= String.length s ->
  exists seps,
    length (re_split_blank s skip cur) = S (length seps) /\
    cur +:+ drop_str skip s = weave (re_split_blank s skip cur) seps /\
    Forall blank_gap seps.
Proof.
  induction s as [|c s IH]; intros skip cur Hskip.
  - exists []. simpl in Hskip. replace skip with 0 by lia. simpl.
    split; [reflexivity | split; [apply append_nil_r | constructor]].
  - destruct skip as [|k].
    + cbn [re_split_blank].
      destruct (match_blank (String c s)) as [n|] eqn:Hm.
      * destruct (match_blank_spec _ n Hm) as (Hn & Hgap). simpl in Hn.
        destruct (IH (n - 1) EmptyString) as (seps & Hlen & Hw & Hall); [lia|].
        exists (take_str n (String c s) :: seps). split; [simpl; now rewrite Hlen|].
        split; [|now constructor].
        cbn [weave]. destruct (re_split_blank s (n - 1) EmptyString) as [|p ps] eqn:Hp;
          [discriminate|].
        rewrite <- Hw. simpl String.append at 3.
        replace (drop_str (n - 1) s) with (drop_str n (String c s))
          by (destruct n; [lia | simpl; now rewrite Nat.sub_0_r]).
        now rewrite take_drop_str.
      * destruct (IH 0 (cur +:+ String c EmptyString)) as (seps & Hlen & Hw & Hall); [lia|].
        exists seps. split; [exact Hlen | split; [|exact Hall]].
        rewrite <- Hw. simpl. now rewrite append_assoc.
    + cbn [re_split_blank]. simpl in Hskip.
      destruct (IH k cur) as (seps & Hlen & Hw & Hall); [lia|].
      exists seps. split; [exact Hlen | split; [exact Hw | exact Hall]].
Qed.

(** Splitting loses nothing: the pieces of [re.split(r"\n\s*\n", text)],
    put back around blank gaps (a line feed, white space, a line feed),
    are the text. *)
Theorem split_blank_reassembles (text : string) :
  exists seps,
    length (re_split_blank text 0 EmptyString) = S (length seps) /\
    text = weave (re_split_blank text 0 EmptyString) seps /\
    Forall blank_gap seps.
Proof.
  destruct (re_split_blank_weave text 0 EmptyString) as (seps & Hlen & Hw & Hall); [lia|].
  exists seps. split; [exact Hlen | split; [exact Hw | exact Hall]].
Qed.






(** ** The frequency table *)

Lemma existsb_eqb_in (t : string) (l : list string) :
  existsb (String.eqb t) l = true <-> In t l.
Proof.
  rewrite existsb_exists. split.
  - intros (x & Hx & Heq). apply String.eqb_eq in Heq. now subst.
  - intros H. exists t. split; [exact H | apply String.eqb_refl].
Qed.

Lemma first_seen_fold (l seen : list string) :
  let out := fold_left (fun seen t => if existsb (String.eqb t) seen then seen
                                      else seen ++ [t]) l seen in
  (NoDup seen -> NoDup out) /\ (forall t, In t out <-> In t seen \/ In t l).
Proof.
  revert seen. induction l as [|x l IH]; intros seen; simpl.
  - split; [auto | intros t; tauto].
  - destruct (existsb (String.eqb x) seen) eqn:Hx.
    + destruct (IH seen) as [Hnd Hin]. split; [exact Hnd|].
      intros t. rewrite Hin. apply existsb_eqb_in in Hx.
      split; [tauto | intros [H | [<- | H]]; tauto].
    + destruct (IH (seen ++ [x])) as [Hnd Hin]. split.
      * intros Hs. apply Hnd. apply NoDup_app; repeat split.
        -- exact Hs.
        -- intros y Hy Hy'. apply list_elem_of_In in Hy, Hy'. destruct Hy' as [<- | []].
           apply existsb_eqb_in in Hy. congruence.
        -- apply NoDup_singleton.
      * intros t. rewrite Hin, in_app_iff. simpl. tauto.
Qed.

Lemma first_seen_NoDup (l : list string) : NoDup (first_seen l).
Proof. apply (first_seen_fold l []). constructor. Qed.

Lemma first_seen_In (l : list string) (t : string) : In t (first_seen l) <-> In t l.
Proof. unfold first_seen. rewrite (proj2 (first_seen_fold l [])). simpl. tauto. Qed.

Lemma keys_freq_add (t : string) (freq : list (string * nat)) :
  map fst (freq_add t freq) =
  if existsb (String.eqb t) (map fst freq) then map fst freq else map fst freq ++ [t].
Proof.
  induction freq as [|[t' n] freq IH]; [reflexivity|].
  simpl. rewrite (String.eqb_sym t t'). destruct (String.eqb t' t); [reflexivity|].
  simpl. rewrite IH. now destruct (existsb (String.eqb t) (map fst freq)).
Qed.

Lemma freq_get_add (x t : string) (freq : list (string * nat)) :
  freq_get (freq_add x freq) t = freq_get freq t + (if String.eqb x t then 1 else 0).
Proof.
  induction freq as [|[t' n] freq IH]; simpl.
  - destruct (String.eqb x t); reflexivity.
  - destruct (String.eqb t' x) eqn:Hx; simpl.
    + apply String.eqb_eq in Hx. subst t'.
      destruct (String.eqb x t); lia.
    + destruct (String.eqb t' t) eqn:Ht; [|exact IH].
      destruct (String.eqb x t) eqn:Hxt; [|lia].
      apply String.eqb_eq in Ht, Hxt. subst. rewrite String.eqb_refl in Hx. discriminate.
Qed.

Lemma count_tokens_fold (toks : list string) (freq : list (string * nat)) :
  let step := fun freq tok => if counted tok then freq_add tok freq else freq in
  map fst (fold_left step toks freq) =
    fold_left (fun seen t => if existsb (String.eqb t) seen then seen else seen ++ [t])
              (List.filter counted toks) (map fst freq) /\
  forall t, freq_get (fold_left step toks freq) t =
            freq_get freq t + occurrences t (List.filter counted toks).
Proof.
  revert freq. induction toks as [|x toks IH]; intros freq; simpl.
  - split; [reflexivity | intros t; unfold occurrences; simpl; lia].
  - destruct (counted x) eqn:Hx.
    + destruct (IH (freq_add x freq)) as [Hk Hg]. split.
      * rewrite Hk. simpl. now rewrite keys_freq_add.
      * intros t. rewrite Hg, freq_get_add. unfold occurrences. simpl.
        rewrite (String.eqb_sym t x). destruct (String.eqb x t); simpl; lia.
    + apply IH.
Qed.

Lemma freq_get_in (freq : list (string * nat)) (t : string) (n : nat) :
  NoDup (map fst freq) -> In (t, n) freq -> freq_get freq t = n.
Proof.
  induction freq as [|[t' m] freq IH]; [contradiction|].
  simpl. intros Hnd [Heq | Hin].
  - injection Heq as -> ->. now rewrite String.eqb_refl.
  - apply NoDup_cons in Hnd. destruct Hnd as [Hnot Hnd].
    destruct (String.eqb t' t) eqn:Ht; [|now apply IH].
    apply String.eqb_eq in Ht. subst t'. exfalso. apply Hnot.
    apply list_elem_of_In. apply in_map_iff. now exists (t, n).
Qed.

Lemma occurrences_filter (t : string) (l : list string) :
  counted t = true -> occurrences t (List.filter counted l) = occurrences t l.
Proof.
  intros Ht. unfold occurrences. induction l as [|x l IH]; [reflexivity|].
  simpl. destruct (counted x) eqn:Hx; simpl.
  - destruct (String.eqb t x); simpl; now rewrite IH.
  - destruct (String.eqb t x) eqn:Htx; [|exact IH].
    apply String.eqb_eq in Htx. congruence.
Qed.

Lemma occurrences_filter_skipped (t : string) (l : list string) :
  counted t = false -> occurrences t (List.filter counted l) = 0.
Proof.
  intros Ht. unfold occurrences. induction l as [|x l IH]; [reflexivity|].
  simpl. destruct (counted x) eqn:Hx; [|exact IH].
  simpl. destruct (String.eqb t x) eqn:Htx; [|exact IH].
  apply String.eqb_eq in Htx. congruence.
Qed.

Lemma occurrences_pos (t : string) (l : list string) : In t l -> 0 < occurrences t l.
Proof.
  unfold occurrences. induction l as [|x l IH]; [contradiction|].
  intros [-> | Hin]; simpl.
  - rewrite String.eqb_refl. simpl. lia.
  - destruct (String.eqb t x); simpl; [lia | now apply IH].
Qed.

(** The frequency loop builds a table whose keys are the tokens it does
    not skip (longer than 2 characters and no stopword), each once and
    in the order of first occurrence, and whose values are the numbers
    of occurrences of the keys among the tokens. *)
Theorem count_tokens_counts (toks : list string) :
  let freq := count_tokens toks in
  map fst freq = first_seen (List.filter counted toks) /\
  NoDup (map fst freq) /\
  (forall t n, In (t, n) freq ->
     In t toks /\ 2 < String.length t /\ (t ∉ _stopwords) /\
     n = occurrences t toks /\ 0 < n) /\
  (forall t, freq_get freq t = if counted t then occurrences t toks else 0).
Proof.
  intros freq. destruct (count_tokens_fold toks []) as [Hk Hg].
  fold (count_tokens toks) in Hk, Hg. fold freq in Hk, Hg.
  assert (Hkeys : map fst freq = first_seen (List.filter counted toks)) by exact Hk.
  assert (Hnd : NoDup (map fst freq)) by (rewrite Hkeys; apply first_seen_NoDup).
  assert (Hget : forall t, freq_get freq t = if counted t then occurrences t toks else 0).
  { intros t. rewrite Hg. simpl. destruct (counted t) eqn:Ht.
    - now apply occurrences_filter.
    - now apply occurrences_filter_skipped. }
  split; [exact Hkeys | split; [exact Hnd | split; [|exact Hget]]].
  intros t n Hin.
  assert (Hkey : In t (List.filter counted toks)).
  { apply first_seen_In. rewrite <- Hkeys. apply in_map_iff. now exists (t, n). }
  apply filter_In in Hkey. destruct Hkey as [Htoks Hc].
  pose proof (freq_get_in freq t n Hnd Hin) as Hn. rewrite Hget, Hc in Hn.
  unfold counted in Hc. apply negb_true_iff, orb_false_iff in Hc. destruct Hc as [Hlen Hstop].
  apply Nat.leb_gt in Hlen. apply bool_decide_eq_false in Hstop.
  repeat split; [exact Htoks | exact Hlen | exact Hstop | now symmetry |].
  subst n. now apply occurrences_pos.
Qed.

(** ** The most frequent tokens *)

Lemma insert_desc_perm (x : string * nat) (l : list (string * nat)) :
  Permutation (insert_desc x l) (x :: l).
Proof.
  induction l as [|y l IH]; simpl; [apply Permutation_refl|].
  destruct (snd x <? snd y).
  - eapply Permutation_trans; [apply perm_skip, IH | apply perm_swap].
  - apply Permutation_refl.
Qed.

Lemma sorted_desc_perm (l : list (string * nat)) : Permutation (sorted_desc l) l.
Proof.
  induction l as [|x l IH]; simpl; [apply Permutation_refl|].
  eapply Permutation_trans; [apply insert_desc_perm | now apply perm_skip].
Qed.

Lemma insert_desc_sorted (x : string * nat) (l : list (string * nat)) :
  StronglySorted (fun a b => snd b <= snd a) l ->
  StronglySorted (fun a b => snd b <= snd a) (insert_desc x l).
Proof.
  induction l as [|y l IH]; intros Hs; simpl.
  - constructor; constructor.
  - apply StronglySorted_inv in Hs. destruct Hs as [Hl Hy].
    destruct (Nat.ltb_spec (snd x) (snd y)) as [Hlt | Hge].
    + constructor; [now apply IH|].
      apply List.Forall_forall. intros z Hz.
      apply (Permutation_in _ (insert_desc_perm x l)) in Hz. destruct Hz as [<- | Hz]; [lia|].
      rewrite List.Forall_forall in Hy. now apply Hy.
    + constructor; [constructor; assumption|].
      constructor; [exact Hge|].
      eapply List.Forall_impl; [|exact Hy]. simpl. intros z Hz. lia.
Qed.

Lemma sorted_desc_sorted (l : list (string * nat)) :
  StronglySorted (fun a b => snd b <= snd a) (sorted_desc l).
Proof.
  induction l as [|x l IH]; simpl; [constructor | now apply insert_desc_sorted].
Qed.

(** Insertion keeps the items of equal count in their order, the new
    one first. *)
Lemma insert_desc_stable (c : nat) (x : string * nat) (l : list (string * nat)) :
  List.filter (fun y => snd y =? c) (insert_desc x l) =
  List.filter (fun y => snd y =? c) (x :: l).
Proof.
  induction l as [|y l IH]; [reflexivity|].
  simpl insert_desc. destruct (Nat.ltb_spec (snd x) (snd y)) as [Hlt | Hge]; [|reflexivity].
  simpl in *. rewrite IH.
  destruct (Nat.eqb_spec (snd x) c) as [Hx | Hx]; [|reflexivity].
  destruct (Nat.eqb_spec (snd y) c) as [Hy | Hy]; [lia | reflexivity].
Qed.

Lemma sorted_desc_stable (c : nat) (l : list (string * nat)) :
  List.filter (fun y => snd y =? c) (sorted_desc l) = List.filter (fun y => snd y =? c) l.
Proof.
  induction l as [|x l IH]; [reflexivity|].
  simpl sorted_desc. rewrite insert_desc_stable. simpl. now rewrite IH.
Qed.

Lemma sorted_split (l : list (string * nat)) (n : nat) (x y : string * nat) :
  StronglySorted (fun a b => snd b <= snd a) l ->
  In x (firstn n l) -> In y (skipn n l) -> snd y <= snd x.
Proof.
  revert n. induction l as [|z l IH]; intros n Hs Hx Hy.
  - now destruct n.
  - destruct n as [|n]; [contradiction|].
    apply StronglySorted_inv in Hs. destruct Hs as [Hl Hz].
    simpl in Hx, Hy. destruct Hx as [<- | Hx].
    + rewrite List.Forall_forall in Hz. apply Hz.
      rewrite <- (firstn_skipn n l). apply in_or_app. now right.
    + now apply (IH n).
Qed.

(** The tokens the upload adds from the text are the first 10 of the
    frequency table sorted by decreasing count, the sort keeping tokens
    of equal count in the table's order (the order of first occurrence
    in the text): there are [min 10] (number of distinct counted tokens)
    of them, every one of them occurs at least as often as every counted
    token left out. *)
Theorem frequent_tokens_top10 (extracted_text : string) :
  let freq := count_tokens (tokenize extracted_text) in
  let ranked := sorted_desc freq in
  frequent_tokens extracted_text = map fst (firstn 10 ranked) /\
  length (frequent_tokens extracted_text) = Nat.min 10 (length freq) /\
  Permutation ranked freq /\
  StronglySorted (fun a b => snd b <= snd a) ranked /\
  (forall c, List.filter (fun y => snd y =? c) ranked = List.filter (fun y => snd y =? c) freq) /\
  (forall x y, In x (firstn 10 ranked) -> In y (skipn 10 ranked) -> snd y <= snd x).
Proof.
  intros freq ranked. split; [reflexivity|]. split.
  - unfold frequent_tokens, ranked, freq.
    rewrite length_map, length_firstn.
    now rewrite (Permutation_length (sorted_desc_perm _)).
  - split; [apply sorted_desc_perm|]. split; [apply sorted_desc_sorted|].
    split; [intros c; apply sorted_desc_stable|].
    intros x y. apply sorted_split, sorted_desc_sorted.
Qed.

(** Ties at the cut: of two tokens that occur twice each, the one met
    first in the text is ranked first. *)
Example frequent_tokens_tie :
  sorted_desc (count_tokens (tokenize "exam fees exam library fees library library")) =
  [("library", 3); ("exam", 2); ("fees", 2)].
Proof. vm_compute. reflexivity. Qed.

(** ** The keywords of an upload *)

Lemma NoDup_filter_bool {A : Type} (f : A -> bool) (l : list A) :
  NoDup l -> NoDup (List.filter f l).
Proof.
  induction l as [|x l IH]; intros H; [constructor|].
  apply NoDup_cons in H. destruct H as [Hx Hl]. simpl.
  destruct (f x); [|now apply IH].
  apply NoDup_cons. split; [|now apply IH].
  intros Hin. apply Hx. apply list_elem_of_In in Hin. apply list_elem_of_In.
  apply filter_In in Hin. tauto.
Qed.

Lemma NoDup_first_n {A : Type} (n : nat) (l : list A) : NoDup l -> NoDup (firstn n l).
Proof.
  revert n. induction l as [|x l IH]; intros n H; [destruct n; constructor|].
  destruct n as [|n]; [constructor|].
  apply NoDup_cons in H. destruct H as [Hx Hl]. simpl.
  apply NoDup_cons. split; [|now apply IH].
  intros Hin. apply Hx. apply list_elem_of_In in Hin. apply list_elem_of_In.
  rewrite <- (firstn_skipn n l). apply in_or_app. now left.
Qed.

(** Whatever order the set is listed in, the keywords of an uploaded
    entry are at most 25, pairwise distinct and not empty; each comes
    from the keyword field of the form, from the first five title
    tokens longer than 2 characters, or from the most frequent tokens of
    the text; when the candidates are no more than 25, all of them are
    kept. *)
Theorem upload_keywords_capped (order : gset string -> list string)
    (title raw_keywords extracted_text : string) :
  (forall X, Permutation (order X) (elements X)) ->
  let kws := upload_keywords order title raw_keywords extracted_text in
  let title_tokens := List.filter (fun t => 2 <? String.length t) (tokenize title) in
  let candidate k := In k (form_keywords raw_keywords) \/ In k (firstn 5 title_tokens)
                     \/ In k (frequent_tokens extracted_text) in
  length kws <= 25 /\ NoDup kws /\
  (forall k, In k kws -> k <> EmptyString /\ candidate k) /\
  (size (base_tokens title raw_keywords extracted_text) <= 25 ->
   forall k, candidate k -> k <> EmptyString -> In k kws).
Proof.
  intros Horder kws title_tokens candidate.
  set (B := base_tokens title raw_keywords extracted_text).
  assert (Hmem : forall k, In k (order B) <-> candidate k).
  { intros k. split.
    - intros Hin. apply (Permutation_in _ (Horder B)) in Hin.
      apply list_elem_of_In, elem_of_elements in Hin. unfold B, base_tokens in Hin.
      rewrite !elem_of_union, !elem_of_list_to_set, !list_elem_of_In in Hin.
      unfold candidate, title_tokens. tauto.
    - intros Hc. apply (Permutation_in _ (Permutation_sym (Horder B))).
      apply list_elem_of_In, elem_of_elements. unfold B, base_tokens.
      rewrite !elem_of_union, !elem_of_list_to_set, !list_elem_of_In.
      unfold candidate, title_tokens in Hc. tauto. }
  assert (Hnd : NoDup (order B)).
  { apply NoDup_ListNoDup. apply (Permutation_NoDup (Permutation_sym (Horder B))).
    apply NoDup_ListNoDup, NoDup_elements. }
  unfold kws, upload_keywords. fold B.
  split; [rewrite length_firstn; lia|]. split.
  - apply NoDup_first_n, NoDup_filter_bool, Hnd.
  - split.
    + intros k Hk.
      assert (Hin : In k (List.filter nonempty (order B))).
      { rewrite <- (firstn_skipn 25 (List.filter nonempty (order B))). apply in_or_app. now left. }
      apply filter_In in Hin. destruct Hin as [Hin Hne].
      split; [now apply nonempty_true | now apply Hmem].
    + intros Hsize k Hc Hne.
      rewrite firstn_all2.
      * apply filter_In. split; [now apply Hmem | now apply nonempty_true].
      * etransitivity; [apply List.filter_length_le|].
        rewrite (Permutation_length (Horder B)). exact Hsize.
Qed.

Lemma upload_keywords_capped_witness :
  let kws := upload_keywords elements "Exam Rules" "Finals, resit" "exam hall exam" in
  length kws <= 25 /\ NoDup kws.
Proof.
  intros kws.
  destruct (upload_keywords_capped elements "Exam Rules" "Finals, resit" "exam hall exam")
    as (H1 & H2 & _).
  - intros X. apply Permutation_refl.
  - split; [exact H1 | exact H2].
Defined.

(** ** The knowledge store *)

Lemma deref_app (objs : list entry) (r1 r2 : list nat) :
  deref objs (r1 ++ r2) = deref objs r1 ++ deref objs r2.
Proof. unfold deref. apply omap_app. Qed.

Lemma deref_cons (objs : list entry) (a : nat) (refs : list nat) :
  deref objs (a :: refs) =
  match objs !! a with
  | Some e => e :: deref objs refs
  | None => deref objs refs
  end.
Proof. reflexivity. Qed.

Lemma deref_grow (objs more : list entry) (refs : list nat) :
  Forall (fun a => a < length objs) refs ->
  deref (objs ++ more) refs = deref objs refs.
Proof.
  intros H. induction H as [|a refs Ha _ IH]; [reflexivity|].
  rewrite !deref_cons, IH. now rewrite lookup_app_l.
Qed.

Lemma deref_new (objs : list entry) (e : entry) :
  deref (objs ++ [e]) [length objs] = [e].
Proof.
  unfold deref. simpl. rewrite lookup_app_r by lia.
  now rewrite Nat.sub_diag.
Qed.

Lemma deref_insert_other (objs : list entry) (a : nat) (e : entry) (refs : list nat) :
  ~ In a refs -> deref (<[a := e]> objs) refs = deref objs refs.
Proof.
  induction refs as [|b refs IH]; intros Hnot; [reflexivity|].
  rewrite !deref_cons.
  rewrite list_lookup_insert_ne by (intros ->; apply Hnot; now left).
  rewrite IH; [reflexivity|]. intros Hin. apply Hnot. now right.
Qed.

(** The tier as addresses, split where the view splits. *)
Lemma deref_split (objs : list entry) (refs : list nat) (l1 l2 : list entry) (e : entry) :
  Forall (fun a => a < length objs) refs ->
  deref objs refs = l1 ++ e :: l2 ->
  exists r1 a r2, refs = r1 ++ a :: r2 /\ deref objs r1 = l1 /\
                  objs !! a = Some e /\ deref objs r2 = l2.
Proof.
  intros Hv. revert l1. induction Hv as [|b refs Hb _ IH]; intros l1 Hd.
  - destruct l1; discriminate.
  - destruct (lookup_lt_is_Some_2 objs b Hb) as [x Hx].
    rewrite deref_cons, Hx in Hd.
    destruct l1 as [|y l1]; simpl in Hd.
    + injection Hd as -> Hd. exists [], b, refs. repeat split; assumption.
    + injection Hd as -> Hd. destruct (IH l1 Hd) as (r1 & a & r2 & -> & H1 & Ha & H2).
      exists (b :: r1), a, r2. repeat split; try assumption.
      simpl app. now rewrite deref_cons, Hx, H1.
Qed.

Lemma find_entry_first (objs : list entry) (r1 r2 : list nat) (a : nat) (e : entry)
    (entry_id : string) :
  Forall (fun x => id x <> entry_id) (deref objs r1) ->
  objs !! a = Some e -> id e = entry_id ->
  find_entry objs (r1 ++ a :: r2) entry_id = Some a.
Proof.
  intros H1 Ha He. induction r1 as [|b r1 IH]; simpl.
  - rewrite Ha. apply String.eqb_eq in He. now rewrite He.
  - rewrite deref_cons in H1. destruct (objs !! b) as [x|] eqn:Hx.
    + apply Forall_cons in H1. destruct H1 as [Hne H1].
      apply String.eqb_neq in Hne. rewrite Hne. apply IH. exact H1.
    + apply IH. exact H1.
Qed.

Lemma find_entry_none (objs : list entry) (refs : list nat) (entry_id : string) :
  Forall (fun x => id x <> entry_id) (deref objs refs) ->
  find_entry objs refs entry_id = None.
Proof.
  induction refs as [|b refs IH]; intros H; [reflexivity|].
  simpl. rewrite deref_cons in H. destruct (objs !! b) as [x|] eqn:Hx.
  - apply Forall_cons in H. destruct H as [Hne H].
    apply String.eqb_neq in Hne. rewrite Hne. now apply IH.
  - now apply IH.
Qed.

Lemma apply_update_id (repr : json -> string) (body : list (string * json)) (found : entry) :
  id (apply_update repr body found) = id found /\
  created_at (apply_update repr body found) = created_at found /\
  source_pdf (apply_update repr body found) = source_pdf found.
Proof.
  unfold apply_update.
  destruct (dict_lookup body "title") as [t|];
    destruct (dict_lookup body "keywords") as [[| | | |[|k ks]|]|];
    destruct (dict_lookup body "responses") as [[| | | |[|r rs]|]|];
    repeat split.
Qed.

Lemma store_ok_grow (srv : server) (e : entry) (d : option json) :
  store_ok srv ->
  store_ok (mk_server (objects srv ++ [e]) (tier srv) d) /\
  store_ok (mk_server (objects srv ++ [e]) (tier srv ++ [length (objects srv)]) d).
Proof.
  intros [Hv Hnd]. unfold store_ok. simpl. rewrite length_app. simpl. repeat split.
  - eapply List.Forall_impl; [|exact Hv]. simpl. intros; lia.
  - exact Hnd.
  - apply Forall_app. split.
    + eapply List.Forall_impl; [|exact Hv]. simpl. intros; lia.
    + constructor; [lia | constructor].
  - apply NoDup_app. repeat split; [exact Hnd | | apply NoDup_singleton].
    intros a Ha Ha'. apply list_elem_of_In in Ha, Ha'. destruct Ha' as [<- | []].
    rewrite List.Forall_forall in Hv. specialize (Hv _ Ha). lia.
Qed.

Lemma view_appended (srv : server) (e : entry) (d : option json) :
  store_ok srv ->
  view (mk_server (objects srv ++ [e]) (tier srv) d) = view srv /\
  view (mk_server (objects srv ++ [e]) (tier srv ++ [length (objects srv)]) d) =
    view srv ++ [e].
Proof.
  intros [Hv _]. unfold view. simpl. split.
  - now apply deref_grow.
  - rewrite deref_app, deref_new. f_equal. now apply deref_grow.
Qed.

(** Whenever [add_knowledge] answers with an error (401 for a request
    that is not authorized, 400 for keywords or responses that are not a
    non-empty array, 500 for a failed write), the tier in memory and the
    file are what they were. *)
Theorem add_knowledge_failure_keeps_store (repr : json -> string) (authorized : bool)
    (body : list (string * json)) (new_id now : string) (write_ok : bool)
    (srv srv' : server) (status : nat) (error : string) :
  store_ok srv ->
  add_knowledge repr authorized body new_id now write_ok srv = (Failure status error, srv') ->
  view srv' = view srv /\ disk srv' = disk srv /\ store_ok srv'.
Proof.
  intros Hok. unfold add_knowledge.
  destruct authorized; simpl; [|intros [= _ _ <-]; auto].
  destruct (negb (is_list _) || negb (truthy _)); [intros [= _ _ <-]; auto|].
  destruct (negb (is_list _) || negb (truthy _)); [intros [= _ _ <-]; auto|].
  destruct write_ok; simpl; [discriminate|]. intros [= _ _ <-].
  split; [apply (view_appended srv _ _ Hok)|]. split; [reflexivity|].
  apply (store_ok_grow srv _ _ Hok).
Qed.

Lemma add_knowledge_failure_keeps_store_witness :
  let srv := mk_server [mk_entry "e1" "Fees" ["fees"] ["Ask the bursar."] "t0" None] [0] None in
  let body := [("keywords", JList [JStr "Exams"]); ("response", JStr "In May.")] in
  view (snd (add_knowledge (fun _ => "") true body "e2" "t1" false srv)) = view srv.
Proof.
  intros srv body.
  destruct (add_knowledge (fun _ => "") true body "e2" "t1" false srv) as [r srv'] eqn:Hadd.
  assert (Hr : r = Failure 500 "Failed to save entry")
    by (apply (f_equal fst) in Hadd; vm_compute in Hadd; now symmetry).
  subst r.
  apply (add_knowledge_failure_keeps_store _ _ _ _ _ _ srv srv' _ _) in Hadd; [apply Hadd|].
  split; [repeat constructor | apply NoDup_singleton].
Defined.

Lemma map_lower_lowercase (f : json -> string) (l : list json) :
  Forall (fun k => lower k = k) (map (fun k => lower (f k)) l).
Proof.
  induction l as [|x l IH]; constructor; [apply lower_idem | exact IH].
Qed.

(** When [add_knowledge] succeeds, the new entry is appended at the end
    of the tier and every other entry is kept in place; the file holds
    the new tier; the entry has the identifier and the time stamp it was
    given, lowercase keywords, at least one keyword and at least one
    response, and no [source_pdf]. *)
Theorem add_knowledge_success_appends (repr : json -> string) (authorized : bool)
    (body : list (string * json)) (new_id now : string) (write_ok : bool)
    (srv srv' : server) (result : option entry) :
  store_ok srv ->
  add_knowledge repr authorized body new_id now write_ok srv = (Success result, srv') ->
  exists e,
    result = Some e /\ authorized = true /\ write_ok = true /\
    view srv' = view srv ++ [e] /\
    disk srv' = Some (tier_json (view srv')) /\
    store_ok srv' /\
    id e = new_id /\ created_at e = now /\ source_pdf e = None /\
    lowercase_keywords e /\ keywords e <> [] /\ responses e <> [].
Proof.
  intros Hok. unfold add_knowledge.
  destruct authorized; simpl; [|discriminate].
  destruct (py_or (dict_get body "keywords") (JList [])) as [| | | |ks|] eqn:Hk;
    simpl; try discriminate.
  destruct ks as [|k ks]; simpl; [discriminate|].
  destruct (responses_field body) as [| | | |rs|] eqn:Hr; simpl; try discriminate.
  destruct rs as [|r rs]; simpl; [discriminate|].
  destruct write_ok; simpl; [|discriminate]. intros [= <- <-].
  eexists. split; [reflexivity|]. split; [reflexivity|]. split; [reflexivity|].
  destruct (view_appended srv
              (mk_entry new_id (py_str repr (py_or (dict_get body "title") (JStr "Custom")))
                 (lower (py_str repr k) :: map (fun k => lower (py_str repr k)) ks)
                 (py_str repr r :: map (py_str repr) rs) now None)
              (_save_admin_entries true
                 (objects srv ++ [mk_entry new_id
                    (py_str repr (py_or (dict_get body "title") (JStr "Custom")))
                    (lower (py_str repr k) :: map (fun k => lower (py_str repr k)) ks)
                    (py_str repr r :: map (py_str repr) rs) now None])
                 (tier srv ++ [length (objects srv)]) (disk srv)) Hok) as [_ Hview].
  split; [exact Hview|]. split.
  - reflexivity.
  - split; [apply (store_ok_grow srv _ _ Hok)|].
    simpl. repeat split; try discriminate;
      try apply (map_lower_lowercase (py_str repr) (k :: ks)).
Qed.

Lemma add_knowledge_success_appends_witness :
  let srv := mk_server [mk_entry "e1" "Fees" ["fees"] ["Ask the bursar."] "t0" None] [0] None in
  let body := [("keywords", JList [JStr "Exams"; JNum 7]); ("response", JStr "In May.")] in
  exists e, view (snd (add_knowledge (fun _ => "7") true body "e2" "t1" true srv)) =
            view srv ++ [e] /\ keywords e = ["exams"; "7"].
Proof.
  intros srv body.
  destruct (add_knowledge (fun _ => "7") true body "e2" "t1" true srv) as [r srv'] eqn:Hadd.
  assert (Hr : exists e, r = Success (Some e) /\ keywords e = ["exams"; "7"]).
  { apply (f_equal fst) in Hadd. vm_compute in Hadd. subst r. eexists. split; reflexivity. }
  destruct Hr as (e0 & -> & Hk0).
  apply (add_knowledge_success_appends _ _ _ _ _ _ srv srv' _) in Hadd.
  - destruct Hadd as (e & [= <-] & _ & _ & Hview & _). exists e0. split; [exact Hview | exact Hk0].
  - split; [repeat constructor | apply NoDup_singleton].
Defined.

Lemma deref_filter (objs : list entry) (refs : list nat) (entry_id : string) :
  deref objs (List.filter (fun a => match objs !! a with
                                    | Some e => negb (String.eqb (id e) entry_id)
                                    | None => true
                                    end) refs) =
  List.filter (fun e => negb (String.eqb (id e) entry_id)) (deref objs refs).
Proof.
  induction refs as [|a refs IH]; [reflexivity|].
  rewrite (deref_cons objs a refs). cbn [List.filter].
  destruct (objs !! a) as [e|] eqn:Ha.
  - cbn [List.filter]. destruct (negb (String.eqb (id e) entry_id)).
    + rewrite deref_cons, Ha. f_equal. exact IH.
    + exact IH.
  - rewrite deref_cons, Ha. exact IH.
Qed.

Lemma filter_keeps_all (objs : list entry) (refs : list nat) (entry_id : string) :
  Forall (fun e => id e <> entry_id) (deref objs refs) ->
  List.filter (fun a => match objs !! a with
                        | Some e => negb (String.eqb (id e) entry_id)
                        | None => true
                        end) refs = refs.
Proof.
  induction refs as [|a refs IH]; intros H; [reflexivity|].
  rewrite deref_cons in H. simpl. destruct (objs !! a) as [e|] eqn:Ha.
  - apply Forall_cons in H. destruct H as [Hne H].
    apply String.eqb_neq in Hne. rewrite Hne. simpl. now rewrite IH.
  - now rewrite IH.
Qed.

Lemma filter_drops_one (objs : list entry) (refs : list nat) (entry_id : string) :
  Exists (fun e => id e = entry_id) (deref objs refs) ->
  length (List.filter (fun a => match objs !! a with
                                | Some e => negb (String.eqb (id e) entry_id)
                                | None => true
                                end) refs) < length refs.
Proof.
  set (f := fun a => match objs !! a with
                     | Some e => negb (String.eqb (id e) entry_id)
                     | None => true
                     end).
  induction refs as [|a refs IH]; intros H; [inversion H|].
  rewrite deref_cons in H. cbn [List.filter length].
  pose proof (List.filter_length_le f refs) as Hle.
  destruct (f a) eqn:Hfa; cbn [length]; [|lia].
  unfold f in Hfa. destruct (objs !! a) as [e|] eqn:Ha.
  - apply Exists_cons in H. destruct H as [H | H].
    + apply String.eqb_eq in H. rewrite H in Hfa. discriminate.
    + specialize (IH H). lia.
  - specialize (IH H). lia.
Qed.

(** Deleting an identifier that no entry of the tier has answers 404 and
    leaves the memory and the file as they were. *)
Theorem delete_unknown_id (entry_id : string) (write_ok : bool) (srv : server) :
  Forall (fun e => id e <> entry_id) (view srv) ->
  delete_knowledge true entry_id write_ok srv = (Failure 404 "Entry not found", srv).
Proof.
  intros H. unfold delete_knowledge. simpl negb. cbv iota.
  rewrite (filter_keeps_all (objects srv) (tier srv) entry_id H).
  now rewrite Nat.eqb_refl.
Qed.

Lemma delete_unknown_id_witness :
  let srv := mk_server [mk_entry "e1" "Fees" ["fees"] ["Ask the bursar."] "t0" None] [0] None in
  delete_knowledge true "e9" true srv = (Failure 404 "Entry not found", srv).
Proof.
  intros srv. apply (delete_unknown_id "e9" true srv).
  constructor; [discriminate | constructor].
Defined.

(** Deleting an identifier that is in the tier removes every entry with
    that identifier and keeps the others in their order, and the file
    then holds the new tier; if the write fails the answer is 500 and the
    memory and the file are as they were.  Either way a second request
    to delete the identifier from a tier that no longer has it answers
    404. *)
Theorem delete_known_id (entry_id : string) (write_ok : bool) (srv : server) :
  Exists (fun e => id e = entry_id) (view srv) ->
  exists srv',
    delete_knowledge true entry_id write_ok srv =
      (if write_ok then Success None else Failure 500 "Failed to delete entry", srv') /\
    view srv' = (if write_ok
                 then List.filter (fun e => negb (String.eqb (id e) entry_id)) (view srv)
                 else view srv) /\
    disk srv' = (if write_ok then Some (tier_json (view srv')) else disk srv) /\
    (write_ok = true ->
     delete_knowledge true entry_id write_ok srv' = (Failure 404 "Entry not found", srv')).
Proof.
  intros H. unfold delete_knowledge at 1. simpl negb. cbv iota.
  pose proof (filter_drops_one (objects srv) (tier srv) entry_id H) as Hlt.
  destruct (Nat.eqb_spec
              (length (List.filter (fun a => match objects srv !! a with
                                             | Some e => negb (String.eqb (id e) entry_id)
                                             | None => true
                                             end) (tier srv)))
              (length (tier srv))) as [Heq | _]; [lia|].
  destruct write_ok; simpl.
  - eexists. split; [reflexivity|]. unfold view at 1. simpl.
    rewrite deref_filter. split; [reflexivity|]. split.
    + unfold view at 1. simpl. now rewrite deref_filter.
    + intros _. apply delete_unknown_id. unfold view at 1. simpl. rewrite deref_filter.
      apply List.Forall_forall. intros e He. apply filter_In in He. destruct He as [_ He].
      apply negb_true_iff in He. now apply String.eqb_neq.
  - eexists. split; [reflexivity|]. split; [reflexivity|]. split; [reflexivity|]. discriminate.
Qed.

Lemma delete_known_id_witness :
  let e1 := mk_entry "e1" "Fees" ["fees"] ["Ask the bursar."] "t0" None in
  let e2 := mk_entry "e2" "Exams" ["exams"] ["In May."] "t1" None in
  view (snd (delete_knowledge true "e1" true (mk_server [e1; e2] [0; 1] None))) = [e2].
Proof.
  intros e1 e2.
  destruct (delete_known_id "e1" true (mk_server [e1; e2] [0; 1] None))
    as (srv' & Hd & Hv & _).
  - left. reflexivity.
  - rewrite Hd. simpl snd. rewrite Hv. reflexivity.
Defined.

(** An update of an identifier that no entry has answers 404 and changes
    nothing. *)
Theorem update_unknown_id (repr : json -> string) (entry_id : string)
    (body : list (string * json)) (write_ok : bool) (srv : server) :
  Forall (fun e => id e <> entry_id) (view srv) ->
  update_knowledge repr true entry_id body write_ok srv =
    (Failure 404 "Entry not found", srv).
Proof.
  intros H. unfold update_knowledge. simpl negb. cbv iota.
  now rewrite (find_entry_none (objects srv) (tier srv) entry_id H).
Qed.

Lemma update_unknown_id_witness :
  let srv := mk_server [mk_entry "e1" "Fees" ["fees"] ["Ask the bursar."] "t0" None] [0] None in
  update_knowledge (fun _ => "") true "e9" [("title", JStr "New")] true srv =
    (Failure 404 "Entry not found", srv).
Proof.
  intros srv. apply (update_unknown_id (fun _ => "") "e9" [("title", JStr "New")] true srv).
  constructor; [discriminate | constructor].
Defined.

(** [update_knowledge] writes to the entry object it found before it
    writes the file, and the copied list holds that same object.  So for
    the first entry with the identifier: its fields are replaced in the
    tier in memory whether the write succeeds or not, the other entries
    are untouched, and the file holds the new tier only if the write
    succeeded; after a failed write (answer 500) the memory has the
    update and the file does not. *)
Theorem update_knowledge_writes_memory_first (repr : json -> string) (entry_id : string)
    (body : list (string * json)) (write_ok : bool) (srv : server)
    (l1 l2 : list entry) (found : entry) :
  store_ok srv ->
  view srv = l1 ++ found :: l2 ->
  Forall (fun e => id e <> entry_id) l1 ->
  id found = entry_id ->
  let found' := apply_update repr body found in
  exists srv',
    update_knowledge repr true entry_id body write_ok srv =
      (if write_ok then Success (Some found') else Failure 500 "Failed to save entry", srv') /\
    view srv' = l1 ++ found' :: l2 /\
    disk srv' = (if write_ok then Some (tier_json (l1 ++ found' :: l2)) else disk srv) /\
    store_ok srv'.
Proof.
  intros [Hv Hnd] Hview H1 Hid found'.
  destruct (deref_split (objects srv) (tier srv) l1 l2 found Hv Hview)
    as (r1 & a & r2 & Ht & Hr1 & Ha & Hr2).
  assert (Hfind : find_entry (objects srv) (tier srv) entry_id = Some a).
  { rewrite Ht. apply (find_entry_first _ r1 r2 a found); [now rewrite Hr1 | exact Ha | exact Hid]. }
  assert (Halt : a < length (objects srv)) by (apply lookup_lt_is_Some_1; now exists found).
  rewrite Ht in Hnd. apply NoDup_app in Hnd. destruct Hnd as (Hnd1 & Hdisj & Hnd2).
  apply NoDup_cons in Hnd2. destruct Hnd2 as [Ha2 Hnd2].
  assert (Hnew : deref (<[a := found']> (objects srv)) (tier srv) = l1 ++ found' :: l2).
  { rewrite Ht, deref_app, deref_cons, list_lookup_insert_eq by exact Halt.
    rewrite !deref_insert_other.
    - now rewrite Hr1, Hr2.
    - intros Hin. apply Ha2. now apply list_elem_of_In.
    - intros Hin. apply (Hdisj a); [now apply list_elem_of_In | left]. }
  exists (mk_server (<[a := found']> (objects srv)) (tier srv)
            (_save_admin_entries write_ok (<[a := found']> (objects srv)) (tier srv) (disk srv))).
  split; [|split; [exact Hnew | split]].
  - unfold update_knowledge. simpl negb. cbv iota. rewrite Hfind, Ha.
    fold found'. now destruct write_ok.
  - simpl. unfold _save_admin_entries, tier_json. destruct write_ok; [|reflexivity].
    now rewrite Hnew.
  - split; simpl; [|now rewrite Ht; apply NoDup_app; repeat split;
                        [| |apply NoDup_cons]].
    rewrite length_insert. exact Hv.
Qed.

Lemma update_knowledge_writes_memory_first_witness :
  let e1 := mk_entry "e1" "Fees" ["fees"] ["Ask the bursar."] "t0" None in
  let srv := mk_server [e1] [0] (Some (tier_json [e1])) in
  let srv' := snd (update_knowledge (fun _ => "") true "e1" [("title", JStr "Tuition")] false srv) in
  view srv' = [mk_entry "e1" "Tuition" ["fees"] ["Ask the bursar."] "t0" None] /\
  disk srv' = Some (tier_json [e1]).
Proof.
  intros e1 srv srv'.
  destruct (update_knowledge_writes_memory_first (fun _ => "") "e1" [("title", JStr "Tuition")]
              false srv [] [] e1) as (s & Hu & Hv & Hd & _).
  - split; [repeat constructor | apply NoDup_singleton].
  - reflexivity.
  - constructor.
  - reflexivity.
  - unfold srv'. rewrite Hu. simpl snd. split; [exact Hv | exact Hd].
Defined.

(** What an update can do to an entry: the identifier, the creation
    time and the source document are never changed; the title is
    replaced exactly when the body has the key; an entry with lowercase
    keywords keeps lowercase keywords, and neither the keywords nor the
    responses of an entry that has some can become empty. *)
Theorem apply_update_preserves (repr : json -> string) (body : list (string * json))
    (found : entry) :
  let found' := apply_update repr body found in
  id found' = id found /\ created_at found' = created_at found /\
  source_pdf found' = source_pdf found /\
  title found' = match dict_lookup body "title" with
                 | Some t => py_str repr t
                 | None => title found
                 end /\
  (lowercase_keywords found -> lowercase_keywords found') /\
  (keywords found <> [] -> keywords found' <> []) /\
  (responses found <> [] -> responses found' <> []).
Proof.
  unfold apply_update, lowercase_keywords.
  destruct (dict_lookup body "title") as [t|];
    destruct (dict_lookup body "keywords") as [[| | | |[|k ks]|]|];
    destruct (dict_lookup body "responses") as [[| | | |[|r rs]|]|];
    simpl; repeat split; auto; try discriminate;
    intros _; apply (map_lower_lowercase (py_str repr) (k :: ks)).
Qed.

(** ** Loading, and what every route keeps *)

Lemma only_strings_JStr (l : list string) : only_strings (map JStr l) = l.
Proof. induction l as [|x l IH]; [reflexivity | simpl; now rewrite IH]. Qed.

Lemma map_lower_fixed (l : list string) :
  Forall (fun k => lower k = k) l -> map lower l = l.
Proof. intros H. induction H as [|x l Hx _ IH]; [reflexivity | simpl; now rewrite Hx, IH]. Qed.

Lemma map_lower_idem (l : list string) : Forall (fun k => lower k = k) (map lower l).
Proof. induction l as [|x l IH]; constructor; [apply lower_idem | exact IH]. Qed.

Lemma normalize_entry_lowercase (new_id now : string) (raw : json) (e : entry) :
  normalize_entry new_id now raw = Done e ->
  lowercase_keywords e /\ source_pdf e = None.
Proof.
  unfold normalize_entry. destruct raw as [| | | | |d]; try discriminate.
  destruct (iterate _) as [ks|]; [|discriminate].
  destruct (text_field _ new_id) as [i|]; [|discriminate].
  destruct (text_field _ "Custom") as [t|]; [|discriminate].
  destruct (text_field _ now) as [c|]; [|discriminate].
  intros [= <-]. split; [apply map_lower_idem | reflexivity].
Qed.

Lemma normalize_all_lowercase (uuids clock : nat -> string) (raws : list json) :
  forall i es, normalize_all uuids clock i raws = Done es ->
  Forall (fun e => lowercase_keywords e /\ source_pdf e = None) es /\
  length es = length raws.
Proof.
  induction raws as [|raw raws IH]; intros i es; simpl.
  - intros [= <-]. split; [constructor | reflexivity].
  - destruct (normalize_entry (uuids i) (clock i) raw) as [e| |] eqn:He; try discriminate.
    destruct (normalize_all uuids clock (S i) raws) as [es'| |] eqn:Hes; try discriminate.
    intros [= <-]. destruct (IH (S i) es' Hes) as [Hall Hlen]. split.
    + constructor; [exact (normalize_entry_lowercase _ _ raw e He) | exact Hall].
    + simpl. now rewrite Hlen.
Qed.

Lemma deref_seq (pre es : list entry) :
  deref (pre ++ es) (seq (length pre) (length es)) = es.
Proof.
  revert pre. induction es as [|e es IH]; intros pre; [reflexivity|].
  simpl seq. rewrite deref_cons, lookup_app_r, Nat.sub_diag by lia. simpl. f_equal.
  specialize (IH (pre ++ [e])). rewrite <- app_assoc, length_app in IH. simpl in IH.
  now rewrite Nat.add_1_r in IH.
Qed.

Lemma boot_view (file : option json) (uuids clock : nat -> string) (srv : server) :
  boot file uuids clock = Done srv ->
  _load_admin_knowledge file uuids clock = Done (view srv) /\ store_ok srv /\
  disk srv = file.
Proof.
  unfold boot. destruct (_load_admin_knowledge file uuids clock) as [es| |]; try discriminate.
  intros [= <-]. unfold view, store_ok. cbn [objects tier disk].
  assert (Hd : deref es (seq 0 (length es)) = es) by apply (deref_seq [] es).
  rewrite Hd. repeat split.
  - apply List.Forall_forall. intros a Ha. apply in_seq in Ha. lia.
  - apply NoDup_ListNoDup, seq_NoDup.
Qed.

Lemma find_entry_some (objs : list entry) (refs : list nat) (entry_id : string) (a : nat) :
  find_entry objs refs entry_id = Some a ->
  In a refs /\ exists e, objs !! a = Some e /\ id e = entry_id.
Proof.
  induction refs as [|b refs IH]; [discriminate|].
  simpl. destruct (objs !! b) as [e|] eqn:Hb.
  - destruct (String.eqb (id e) entry_id) eqn:He.
    + intros [= <-]. split; [now left|]. exists e. split; [exact Hb | now apply String.eqb_eq].
    + intros H. destruct (IH H) as [Hin Hex]. split; [now right | exact Hex].
  - intros H. destruct (IH H) as [Hin Hex]. split; [now right | exact Hex].
Qed.

Lemma deref_in (objs : list entry) (refs : list nat) (e : entry) :
  In e (deref objs refs) <-> exists a, In a refs /\ objs !! a = Some e.
Proof.
  induction refs as [|b refs IH].
  - simpl. split; [contradiction | intros (a & [] & _)].
  - rewrite deref_cons. destruct (objs !! b) as [x|] eqn:Hb.
    + simpl. rewrite IH. split.
      * intros [<- | (a & Ha & He)]; [exists b; split; [now left | exact Hb]
                                     | exists a; split; [now right | exact He]].
      * intros (a & [<- | Ha] & He); [left; congruence | right; now exists a].
    + rewrite IH. split.
      * intros (a & Ha & He). exists a. split; [now right | exact He].
      * intros (a & [<- | Ha] & He); [congruence | now exists a].
Qed.

Lemma deref_insert_in (objs : list entry) (refs : list nat) (a : nat) (x e : entry) :
  In e (deref (<[a := x]> objs) refs) -> e = x \/ In e (deref objs refs).
Proof.
  rewrite !deref_in. intros (b & Hb & He).
  destruct (Nat.eq_dec a b) as [<- | Hne].
  - left. apply list_lookup_insert_Some in He.
    destruct He as [(_ & Hx & _) | (Hne & _)]; [now symmetry | congruence].
  - right. exists b. split; [exact Hb|]. now rewrite list_lookup_insert_ne in He.
Qed.

(** The admin tier in memory has lowercase keywords throughout: this
    holds of the tier that [CollegeAI()] loads, whatever the file holds,
    and every request to add, update or delete an entry keeps it, and
    keeps the memory well formed, whatever the request and whether or
    not the write succeeds. *)
Theorem tier_keywords_lowercase (repr : json -> string) :
  let inv srv := store_ok srv /\ Forall lowercase_keywords (view srv) in
  (forall file uuids clock srv, boot file uuids clock = Done srv -> inv srv) /\
  (forall authorized body new_id now write_ok srv, inv srv ->
     inv (snd (add_knowledge repr authorized body new_id now write_ok srv))) /\
  (forall authorized entry_id body write_ok srv, inv srv ->
     inv (snd (update_knowledge repr authorized entry_id body write_ok srv))) /\
  (forall authorized entry_id write_ok srv, inv srv ->
     inv (snd (delete_knowledge authorized entry_id write_ok srv))).
Proof.
  intros inv. split; [|split; [|split]].
  - intros file uuids clock srv Hboot.
    destruct (boot_view file uuids clock srv Hboot) as (Hload & Hok & _).
    split; [exact Hok|].
    unfold _load_admin_knowledge in Hload.
    destruct (match file with Some j => j | None => JDict [("entries", JList [])] end)
      as [| | | | |d]; try discriminate.
    destruct (iterate _) as [l|]; [|discriminate].
    destruct (normalize_all_lowercase uuids clock l 0 (view srv) Hload) as [Hall _].
    eapply List.Forall_impl; [|exact Hall]. simpl. tauto.
  - intros authorized body new_id now write_ok srv [Hok Hlow]. unfold add_knowledge.
    destruct authorized; simpl; [|now split].
    destruct (py_or (dict_get body "keywords") (JList [])) as [| | | |ks|] eqn:Hk;
      simpl; try (now split).
    destruct ks as [|k ks]; simpl; [now split|].
    destruct (negb (is_list (responses_field body)) || negb (truthy (responses_field body)));
      [now split|].
    destruct write_ok; simpl.
    + split; [apply (store_ok_grow srv _ _ Hok)|].
      rewrite (proj2 (view_appended srv _ _ Hok)). apply Forall_app. split; [exact Hlow|].
      constructor; [|constructor].
      apply (map_lower_lowercase (py_str repr) (k :: ks)).
    + split; [apply (store_ok_grow srv _ _ Hok)|].
      now rewrite (proj1 (view_appended srv _ _ Hok)).
  - intros authorized entry_id body write_ok srv [Hok Hlow]. unfold update_knowledge.
    destruct authorized; simpl; [|now split].
    destruct (find_entry (objects srv) (tier srv) entry_id) as [a|] eqn:Hfind; [|now split].
    destruct (objects srv !! a) as [found|] eqn:Ha; [|now split].
    assert (Hin : In found (view srv)) by
      (apply deref_in; exists a; split; [apply (find_entry_some _ _ _ _ Hfind) | exact Ha]).
    assert (Hfound : lowercase_keywords (apply_update repr body found)).
    { rewrite List.Forall_forall in Hlow. specialize (Hlow found Hin). revert Hlow.
      unfold apply_update, lowercase_keywords.
      destruct (dict_lookup body "title") as [t|];
        destruct (dict_lookup body "keywords") as [[| | | |[|k ks]|]|];
        destruct (dict_lookup body "responses") as [[| | | |[|r rs]|]|];
        simpl; auto; intros _; apply (map_lower_lowercase (py_str repr) (k :: ks)). }
    assert (Hinv : inv (mk_server (<[a := apply_update repr body found]> (objects srv))
                          (tier srv)
                          (_save_admin_entries write_ok
                             (<[a := apply_update repr body found]> (objects srv))
                             (tier srv) (disk srv)))).
    { split.
      - destruct Hok as [Hv Hnd]. split; simpl; [now rewrite length_insert | exact Hnd].
      - unfold view. simpl. apply List.Forall_forall. intros e He.
        apply deref_insert_in in He. destruct He as [-> | He]; [exact Hfound|].
        rewrite List.Forall_forall in Hlow. now apply Hlow. }
    now destruct write_ok.
  - intros authorized entry_id write_ok srv [Hok Hlow]. unfold delete_knowledge.
    destruct authorized; simpl; [|now split].
    destruct (_ =? _); [now split|].
    assert (Hinv : inv (mk_server (objects srv)
                          (List.filter (fun a => match objects srv !! a with
                                                 | Some e => negb (String.eqb (id e) entry_id)
                                                 | None => true
                                                 end) (tier srv))
                          (_save_admin_entries write_ok (objects srv)
                             (List.filter (fun a => match objects srv !! a with
                                                    | Some e => negb (String.eqb (id e) entry_id)
                                                    | None => true
                                                    end) (tier srv)) (disk srv)))).
    { split.
      - destruct Hok as [Hv Hnd]. split; simpl.
        + apply List.Forall_forall. intros a Ha. apply filter_In in Ha.
          rewrite List.Forall_forall in Hv. now apply Hv.
        + now apply NoDup_filter_bool.
      - unfold view. simpl. rewrite deref_filter.
        apply List.Forall_forall. intros e He. apply filter_In in He.
        rewrite List.Forall_forall in Hlow. now apply Hlow. }
    destruct write_ok; simpl; [exact Hinv | now split].
Qed.

Lemma entry_json_fields (e : entry) :
  exists d, entry_json e = JDict d /\
    dict_get d "id" = JStr (id e) /\ dict_get d "title" = JStr (title e) /\
    dict_get d "keywords" = JList (map JStr (keywords e)) /\
    dict_get d "responses" = JList (map JStr (responses e)) /\
    dict_get d "response" = JNull /\
    dict_get d "created_at" = JStr (created_at e).
Proof.
  destruct e as [i0 t0 ks rs c0 [f|]]; eexists; (split; [reflexivity|]);
    repeat split; reflexivity.
Qed.

Lemma text_field_nonempty (s dflt : string) :
  s <> EmptyString -> text_field (JStr s) dflt = Some s.
Proof. intros H. destruct s; [congruence | reflexivity]. Qed.

Lemma normalize_entry_json (new_id now : string) (e : entry) :
  id e <> EmptyString -> title e <> EmptyString -> created_at e <> EmptyString ->
  lowercase_keywords e ->
  normalize_entry new_id now (entry_json e) = Done (forget_pdf e).
Proof.
  intros Hid Ht Hc Hk.
  destruct (entry_json_fields e) as (d & -> & Gid & Gt & Gk & Gr & Gr1 & Gc).
  unfold normalize_entry, responses_field. rewrite Gid, Gt, Gk, Gr, Gc. clear Gr1.
  assert (Hkw : iterate (py_or (JList (map JStr (keywords e))) (JList [])) =
                Some (map JStr (keywords e))) by (destruct (keywords e); reflexivity).
  rewrite Hkw, !text_field_nonempty by assumption.
  simpl. rewrite !only_strings_JStr, (map_lower_fixed _ Hk). reflexivity.
Qed.

(** A tier written by [_save_admin_entries] and loaded again is the same
    tier, without the [source_pdf] keys, provided every entry has a
    non-empty id, title and time stamp and lowercase keywords (as every
    entry the routes create has): no identifier or time is regenerated
    and no keyword or response is lost. *)
Theorem save_load_round_trip (es : list entry) (uuids clock : nat -> string) :
  Forall (fun e => id e <> EmptyString /\ title e <> EmptyString /\
                   created_at e <> EmptyString /\ lowercase_keywords e) es ->
  _load_admin_knowledge (Some (tier_json es)) uuids clock = Done (map forget_pdf es).
Proof.
  intros H.
  change (_load_admin_knowledge (Some (tier_json es)) uuids clock)
    with (normalize_all uuids clock 0 (map entry_json es)).
  generalize 0. induction H as [|e es (Hid & Ht & Hc & Hk) _ IH]; intros i; [reflexivity|].
  cbn [map normalize_all]. rewrite IH.
  now rewrite (normalize_entry_json (uuids i) (clock i) e Hid Ht Hc Hk).
Qed.

Lemma save_load_round_trip_witness :
  let e1 := mk_entry "e1" "Fees" ["fees"; "tuition"] ["Ask the bursar."] "t0" (Some "fees.pdf") in
  _load_admin_knowledge (Some (tier_json [e1])) (fun _ => "new") (fun _ => "now") =
  Done [mk_entry "e1" "Fees" ["fees"; "tuition"] ["Ask the bursar."] "t0" None].
Proof.
  intros e1. apply (save_load_round_trip [e1]).
  constructor; [|constructor].
  repeat split; try discriminate. repeat constructor.
Defined.

(** ** Tokens *)

Lemma all_alnum_snoc (cur : string) (c : ascii) :
  all_alnum (cur +:+ String c EmptyString) = all_alnum cur && is_alnum c.
Proof.
  induction cur as [|x cur IH]; simpl; [now rewrite andb_true_r|].
  rewrite IH. now rewrite andb_assoc.
Qed.

Lemma findall_alnum_tokens (s : string) :
  forall cur, all_alnum cur = true -> lower s = s -> lower cur = cur ->
  Forall (fun t => t <> EmptyString /\ all_alnum t = true /\ lower t = t /\
                   exists a b, cur +:+ s = a +:+ t +:+ b)
         (findall_alnum s cur).
Proof.
  induction s as [|c s IH]; intros cur Hcur Hs Hlc.
  - simpl. unfold flush. destruct (nonempty cur) eqn:Hn; constructor; [|constructor].
    repeat split; [now apply nonempty_true | exact Hcur | exact Hlc|].
    exists EmptyString, EmptyString. simpl. now rewrite !append_nil_r.
  - simpl in Hs. injection Hs as Hc Hs. simpl.
    destruct (is_alnum c) eqn:Hal.
    + assert (Hnew : all_alnum (cur +:+ String c EmptyString) = true)
        by (rewrite all_alnum_snoc, Hcur, Hal; reflexivity).
      assert (Hlow : lower (cur +:+ String c EmptyString) = cur +:+ String c EmptyString)
        by (rewrite lower_append, Hlc; simpl; now rewrite Hc).
      specialize (IH _ Hnew Hs Hlow).
      eapply List.Forall_impl; [|exact IH]. simpl.
      intros t (H1 & H2 & H3 & a & b & Hab). repeat split; try assumption.
      exists a, b. rewrite <- Hab. now rewrite append_assoc.
    + apply Forall_app. split.
      * unfold flush. destruct (nonempty cur) eqn:Hn; constructor; [|constructor].
        repeat split; [now apply nonempty_true | exact Hcur | exact Hlc|].
        exists EmptyString, (String c s). reflexivity.
      * specialize (IH EmptyString eq_refl Hs eq_refl).
        eapply List.Forall_impl; [|exact IH]. simpl.
        intros t (H1 & H2 & H3 & a & b & Hab). repeat split; try assumption.
        exists (cur +:+ String c a), b. simpl in Hab. rewrite Hab.
        rewrite !append_assoc. reflexivity.
Qed.

Lemma tokenize_lowercase (text : string) :
  Forall (fun t => lower t = t) (tokenize text).
Proof.
  unfold tokenize. apply List.Forall_forall. intros t Ht. apply filter_In in Ht.
  destruct Ht as [Ht _].
  pose proof (findall_alnum_tokens (lower text) EmptyString eq_refl (lower_idem text) eq_refl)
    as Hall.
  rewrite List.Forall_forall in Hall. now apply Hall.
Qed.

(** Every token of [_tokenize] is a non-empty run of ASCII letters and
    digits, is lowercase, is a literal part of the lowercased text and
    is no stopword; and the tokens of a text are those of its lowercase
    form. *)
Theorem tokenize_tokens (text : string) :
  Forall (fun t => t <> EmptyString /\ all_alnum t = true /\ lower t = t /\
                   str_in t (lower text) = true /\ (t ∉ _stopwords))
         (_tokenize text) /\
  _tokenize (lower text) = _tokenize text.
Proof.
  split.
  - unfold _tokenize. apply List.Forall_forall. intros t Ht. apply filter_In in Ht.
    destruct Ht as [Ht Hf]. apply andb_true_iff in Hf. destruct Hf as [_ Hstop].
    apply bool_decide_eq_true in Hstop.
    pose proof (findall_alnum_tokens (lower text) EmptyString eq_refl (lower_idem text) eq_refl)
      as Hall.
    rewrite List.Forall_forall in Hall.
    destruct (Hall t Ht) as (H1 & H2 & H3 & a & b & Hab).
    repeat split; try assumption. apply str_in_spec. now exists a, b.
  - unfold _tokenize. now rewrite lower_idem.
Qed.

(** The tokenizer on the query of the specification's example. *)
Example tokenize_admission :
  _tokenize "Admission Requirements?" = ["admission"; "requirements"].
Proof. vm_compute. reflexivity. Qed.

(** The score of an entry is at most three times the number of its
    keywords plus 11, the sum of the three caps. *)
Theorem score_upper_bound (user_message_lower : string) (user_tokens : gset string)
    (e : entry) :
  _score_entry_match user_message_lower user_tokens e <= 3 * length (keywords e) + 11.
Proof.
  unfold _score_entry_match, keyword_hits.
  pose proof (List.filter_length_le
                (fun k => nonempty k && str_in k user_message_lower) (keywords e)).
  lia.
Qed.

(** ** Queries that differ in case *)

Lemma qmark_lower_char (c : ascii) :
  Ascii.eqb "?" (lower_char c) = Ascii.eqb "?" c.
Proof. destruct c as [[] [] [] [] [] [] [] []]; reflexivity. Qed.

Lemma has_qmark_lower (s : string) : has_qmark (lower s) = has_qmark s.
Proof.
  unfold has_qmark. induction s as [|c s IH]; [reflexivity|].
  cbn [lower str_in]. rewrite IH. f_equal.
  change (startswith (String (lower_char c) (lower s)) "?")
    with (Ascii.eqb "?" (lower_char c) && true).
  change (startswith (String c s) "?") with (Ascii.eqb "?" c && true).
  now rewrite qmark_lower_char.
Qed.

(** Matching ignores the case of the query: two queries with the same
    lowercase form rank the admin tier and the built-in table alike and
    get the same reply for the same draw. *)
Theorem response_ignores_case (kb : list (string * category)) (tier : list entry)
    (rnd : nat) (q q' : string) :
  lower q = lower q' ->
  rank_admin tier q = rank_admin tier q' /\
  rank_builtin kb q = rank_builtin kb q' /\
  response_text kb tier rnd q = response_text kb tier rnd q'.
Proof.
  intros Hl.
  assert (Htok : token_set q = token_set q').
  { unfold token_set, _tokenize. now rewrite Hl. }
  assert (Hq : has_qmark q = has_qmark q').
  { rewrite <- (has_qmark_lower q), <- (has_qmark_lower q'). now rewrite Hl. }
  assert (Ha : rank_admin tier q = rank_admin tier q')
    by (unfold rank_admin; now rewrite Hl, Htok).
  assert (Hb : rank_builtin kb q = rank_builtin kb q')
    by (unfold rank_builtin; now rewrite Hl).
  split; [exact Ha | split; [exact Hb|]].
  unfold response_text, builtin_or_default, personalize_admin, personalize_builtin,
    _get_default_response.
  now rewrite Ha, Hb, Hq.
Qed.

Lemma response_ignores_case_witness :
  let e := mk_entry "e1" "Library" ["library"; "hours"] ["Open nine to five."] "t0" None in
  response_text _load_knowledge_base [e] 0 "LIBRARY Hours?" =
  response_text _load_knowledge_base [e] 0 "library hours?".
Proof.
  intros e.
  apply (response_ignores_case _load_knowledge_base [e] 0 "LIBRARY Hours?" "library hours?").
  reflexivity.
Defined.

(** ** The built-in tier and the default pool *)

Lemma builtin_or_default_none (kb : list (string * category)) (rnd : nat)
    (user_message : string) :
  Forall (fun c => builtin_score (lower user_message) c = 0) kb ->
  builtin_or_default kb rnd user_message = random_choice rnd default_responses.
Proof.
  intros H0. unfold builtin_or_default, rank_builtin, _get_default_response.
  destruct (rank_spec (builtin_score (lower user_message)) kb)
    as [[-> _] | (l1 & c & l2 & -> & Hpos & _)]; [reflexivity|].
  apply Forall_app in H0. destruct H0 as [_ H0]. inversion H0; subst. lia.
Qed.

(** A query on which no admin entry scores and in which no built-in
    keyword occurs is answered from the default pool, with the response
    as drawn, and without source. *)
Theorem fallback_to_default (ai : CollegeAI) (rnd : nat) (now1 now2 user_message : string) :
  Forall (fun e => _score_entry_match (lower user_message) (token_set user_message) e = 0)
         (admin_knowledge ai) ->
  Forall (fun c => builtin_score (lower user_message) c = 0) _load_knowledge_base ->
  fst (get_response ai rnd now1 now2 user_message) = random_choice rnd default_responses /\
  In (fst (get_response ai rnd now1 now2 user_message)) default_responses /\
  fst (get_response_with_meta ai rnd now1 now2 user_message) =
    (random_choice rnd default_responses, None).
Proof.
  intros Ha Hb.
  assert (Htext : fst (get_response ai rnd now1 now2 user_message) =
                  random_choice rnd default_responses).
  { rewrite get_response_text, no_admin_match by exact Ha.
    now apply builtin_or_default_none. }
  split; [exact Htext|]. split.
  - rewrite Htext. apply random_choice_in. discriminate.
  - assert (Hg : admin_guard (rank_admin (admin_knowledge ai) user_message) = None).
    { unfold rank_admin.
      destruct (rank_spec (_score_entry_match (lower user_message) (token_set user_message))
                          (admin_knowledge ai))
        as [[-> _] | (l1 & e & l2 & Hl & Hpos & _)]; [reflexivity|].
      rewrite Hl in Ha. apply Forall_app in Ha. destruct Ha as [_ Ha].
      inversion Ha; subst. lia. }
    unfold get_response_with_meta. rewrite Hg.
    destruct (get_response ai rnd now1 now2 user_message) as [text ai'] eqn:Hr.
    simpl in Htext. now rewrite Htext.
Qed.

Lemma fallback_to_default_witness :
  In (fst (get_response (mk_ai [] []) 2 "t1" "t2" "asdkjasjkd")) default_responses.
Proof.
  apply (fallback_to_default (mk_ai [] []) 2 "t1" "t2" "asdkjasjkd").
  - constructor.
  - vm_compute. repeat constructor.
Defined.

Lemma kb_table (name : string) (c : category) :
  In (name, c) _load_knowledge_base ->
  kb_lookup _load_knowledge_base name = Some c /\ nonempty name = true /\
  cat_responses c <> [].
Proof.
  intros H. simpl in H.
  repeat (destruct H as [H | H];
          [injection H as <- <-; split; [reflexivity | split; [reflexivity | discriminate]]|]).
  contradiction.
Qed.

(** When no admin entry scores on a query, the reply comes from the
    first built-in category with the most keywords occurring in the
    lowercased query: it is one of that category's responses, followed by
    the follow-up exactly when the query has a ['?']. *)
Theorem builtin_match_response (ai : CollegeAI) (rnd : nat) (now1 now2 user_message : string)
    (l1 l2 : list (string * category)) (name : string) (c : category) :
  let cat_score := builtin_score (lower user_message) in
  Forall (fun e => _score_entry_match (lower user_message) (token_set user_message) e = 0)
         (admin_knowledge ai) ->
  _load_knowledge_base = l1 ++ (name, c) :: l2 ->
  0 < cat_score (name, c) ->
  Forall (fun x => cat_score x < cat_score (name, c)) l1 ->
  Forall (fun x => cat_score x <= cat_score (name, c)) l2 ->
  let r := random_choice rnd (cat_responses c) in
  In r (cat_responses c) /\
  fst (get_response ai rnd now1 now2 user_message) =
    (if has_qmark user_message then r +:+ followup else r).
Proof.
  intros cat_score Ha Hkb Hpos H1 H2 r.
  assert (Hin : In (name, c) _load_knowledge_base)
    by (rewrite Hkb; apply in_or_app; right; now left).
  destruct (kb_table name c Hin) as (Hlook & Hname & Hresp).
  split; [now apply random_choice_in|].
  rewrite get_response_text, no_admin_match by exact Ha.
  unfold builtin_or_default, rank_builtin.
  assert (Hrank : rank cat_score _load_knowledge_base = (Some (name, c), cat_score (name, c))).
  { destruct (rank_spec cat_score _load_knowledge_base)
      as [[_ H0] | (m1 & x & m2 & Hm & Hxpos & Hm1 & Hm2 & Hr)].
    - rewrite List.Forall_forall in H0. specialize (H0 _ Hin). lia.
    - rewrite Hr. rewrite Hkb in Hm.
      assert (Hsame : l1 = m1 /\ (name, c) = x).
      { clear -Hm H1 H2 Hm1 Hm2. revert m1 Hm Hm1.
        induction l1 as [|y l1 IH]; intros m1 Hm Hm1.
        - destruct m1 as [|z m1]; simpl in Hm.
          + injection Hm as Hx _. now split.
          + injection Hm as Hz Hm. subst z.
            apply Forall_cons in Hm1. destruct Hm1 as [Hlt _].
            assert (Hx : In x l2) by (rewrite Hm; apply in_or_app; right; now left).
            rewrite List.Forall_forall in H2. specialize (H2 x Hx). lia.
        - apply Forall_cons in H1. destruct H1 as [Hy H1].
          destruct m1 as [|z m1]; simpl in Hm.
          + injection Hm as Hx Hm. subst y.
            assert (Hc : In (name, c) m2) by (rewrite <- Hm; apply in_or_app; right; now left).
            rewrite List.Forall_forall in Hm2. specialize (Hm2 _ Hc). lia.
          + injection Hm as Hz Hm. subst z.
            apply Forall_cons in Hm1. destruct Hm1 as [_ Hm1].
            destruct (IH H1 m1 Hm Hm1) as [-> Hx]. now split. }
      destruct Hsame as [_ <-]. reflexivity. }
  fold cat_score. rewrite Hrank, Hname, Hlook.
  apply Nat.ltb_lt in Hpos. rewrite Hpos. reflexivity.
Qed.

Lemma builtin_match_response_witness :
  fst (get_response (mk_ai [] []) 0 "t1" "t2" "Where can I park my car?") =
  random_choice 0 (cat_responses kb_parking) +:+ followup.
Proof.
  destruct (builtin_match_response (mk_ai [] []) 0 "t1" "t2" "Where can I park my car?"
              (firstn 9 _load_knowledge_base) [] "parking" kb_parking) as [_ H].
  - constructor.
  - reflexivity.
  - vm_compute. lia.
  - vm_compute. repeat constructor.
  - constructor.
  - exact H.
Defined.

(** ** The two entry points, the chat route and the statistics *)

(** [get_response_with_meta] returns the text of [get_response] and
    leaves the object in the same state: the tier as it was and the
    history longer by the user turn and the bot turn; the source names
    the ranked admin entry exactly when the admin branch is taken. *)
Theorem meta_agrees_with_get_response (ai : CollegeAI) (rnd : nat)
    (now1 now2 user_message : string) :
  let plain := get_response ai rnd now1 now2 user_message in
  let meta := get_response_with_meta ai rnd now1 now2 user_message in
  fst (fst meta) = fst plain /\ snd meta = snd plain /\
  admin_knowledge (snd plain) = admin_knowledge ai /\
  conversation_history (snd plain) =
    conversation_history ai ++ [UserTurn user_message now1; BotTurn (fst plain) now2] /\
  snd (fst meta) =
    match selected_branch _load_knowledge_base (admin_knowledge ai) user_message with
    | AdminMatch best =>
        Some (mk_source "admin" (id best) (title best) (source_pdf best))
    | _ => None
    end.
Proof.
  intros plain meta. unfold plain, meta, get_response_with_meta, get_response,
    response_text, selected_branch.
  destruct (admin_guard (rank_admin (admin_knowledge ai) user_message)) as [best|].
  - cbn [fst snd admin_knowledge conversation_history].
    split; [reflexivity|]. split; [reflexivity|]. split; [reflexivity|].
    split; reflexivity.
  - cbn [fst snd admin_knowledge conversation_history].
    split; [reflexivity|]. split; [reflexivity|]. split; [reflexivity|].
    split; [reflexivity|].
    destruct (rank_builtin _load_knowledge_base user_message) as [[[name c]|] s];
      [|reflexivity].
    destruct (nonempty name && (0 <? s)); [|reflexivity].
    now destruct (kb_lookup _load_knowledge_base name).
Qed.

Lemma meta_agrees_with_get_response_history (ai : CollegeAI) (rnd : nat)
    (now1 now2 user_message : string) :
  conversation_history (snd (get_response_with_meta ai rnd now1 now2 user_message)) =
  conversation_history ai ++
    [UserTurn user_message now1;
     BotTurn (fst (fst (get_response_with_meta ai rnd now1 now2 user_message))) now2].
Proof.
  unfold get_response_with_meta, get_response.
  destruct (admin_guard (rank_admin (admin_knowledge ai) user_message)); reflexivity.
Qed.

Lemma chat_history_length (ai ai' : CollegeAI) (data : json) (rnd : nat)
    (now1 now2 : string) (r : chat_reply) :
  chat ai data rnd now1 now2 = (r, ai') ->
  admin_knowledge ai' = admin_knowledge ai /\
  length (conversation_history ai') =
    length (conversation_history ai) + (if is_ok r then 2 else 0).
Proof.
  unfold chat. destruct (truthy data); simpl;
    [|intros [= <- <-]; simpl; split; [reflexivity | lia]].
  destruct data as [| | |s|l|d]; try (intros [= <- <-]; simpl; split; [reflexivity | lia]).
  - destruct (str_in "message" s); intros [= <- <-]; simpl; split; (reflexivity || lia).
  - destruct (existsb _ l); intros [= <- <-]; simpl; split; (reflexivity || lia).
  - destruct (dict_lookup d "message") as [[| | |m| |]|];
      try (intros [= <- <-]; simpl; split; [reflexivity | lia]).
    destruct (nonempty (strip m)); simpl;
      [|intros [= <- <-]; simpl; split; [reflexivity | lia]].
    unfold get_response_with_meta, get_response.
    destruct (admin_guard _); intros [= <- <-]; simpl;
      (split; [reflexivity | rewrite length_app; simpl; lia]).
Qed.

(** [/api/chat] answers with a reply exactly for a JSON object whose
    [message] is a string with a character that is not white space; the
    reply is the one [get_response_with_meta] gives for the trimmed
    message, and the history records the trimmed message and the reply.
    Every other request is answered with status 400 or 500 and leaves
    the history as it was. *)
Theorem chat_accepts (ai : CollegeAI) (data : json) (rnd : nat) (now1 now2 : string) :
  (forall d m, data = JDict d -> dict_lookup d "message" = Some (JStr m) ->
     strip m <> EmptyString ->
     let g := get_response_with_meta ai rnd now1 now2 (strip m) in
     chat ai data rnd now1 now2 = (ChatOk (fst (fst g)) (snd (fst g)), snd g)) /\
  (forall reply source ai', chat ai data rnd now1 now2 = (ChatOk reply source, ai') ->
     exists d m, data = JDict d /\ dict_lookup d "message" = Some (JStr m) /\
       strip m <> EmptyString /\
       conversation_history ai' =
         conversation_history ai ++ [UserTurn (strip m) now1; BotTurn reply now2]) /\
  (forall status error ai', chat ai data rnd now1 now2 = (ChatError status error, ai') ->
     ai' = ai /\ (status = 400 \/ status = 500)).
Proof.
  split; [|split].
  - intros d m -> Hm Hne g. unfold chat.
    assert (Ht : truthy (JDict d) = true) by (destruct d; [discriminate | reflexivity]).
    rewrite Ht, Hm. simpl negb. cbv iota.
    apply nonempty_true in Hne. rewrite Hne. simpl negb. cbv iota. fold g.
    now destruct g as [[text source] ai'].
  - intros reply source ai'. unfold chat. destruct (truthy data); simpl; [|discriminate].
    destruct data as [| | |s|l|d]; try discriminate.
    + destruct (str_in "message" s); discriminate.
    + destruct (existsb _ l); discriminate.
    + destruct (dict_lookup d "message") as [[| | |m| |]|] eqn:Hm; try discriminate.
      destruct (nonempty (strip m)) eqn:Hne; simpl; [|discriminate].
      pose proof (meta_agrees_with_get_response_history ai rnd now1 now2 (strip m)) as Hh.
      destruct (get_response_with_meta ai rnd now1 now2 (strip m)) as [[text src] ai2].
      simpl in Hh. intros [= <- <- <-]. exists d, m.
      split; [reflexivity|]. split; [exact Hm|].
      split; [now apply nonempty_true | exact Hh].
  - intros status error ai'. unfold chat. destruct (truthy data); simpl;
      [|intros [= <- _ <-]; auto].
    destruct data as [| | |s|l|d]; try (intros [= <- _ <-]; auto).
    + destruct (str_in "message" s); intros [= <- _ <-]; auto.
    + destruct (existsb _ l); intros [= <- _ <-]; auto.
    + destruct (dict_lookup d "message") as [[| | |m| |]|];
        try (intros [= <- _ <-]; auto).
      destruct (nonempty (strip m)); simpl; [|intros [= <- _ <-]; auto].
      destruct (get_response_with_meta ai rnd now1 now2 (strip m)) as [[text src] ai2].
      discriminate.
Qed.

Lemma chat_all_count (requests : list (json * nat * string * string)) :
  forall ai replies ai',
    chat_all ai requests = (replies, ai') ->
    admin_knowledge ai' = admin_knowledge ai /\
    length (conversation_history ai') =
      length (conversation_history ai) + 2 * length (List.filter is_ok replies).
Proof.
  induction requests as [|[[[data rnd] now1] now2] rest IH]; intros ai replies ai'.
  - simpl. intros [= <- <-]. simpl. split; [reflexivity | lia].
  - simpl. destruct (chat ai data rnd now1 now2) as [r ai1] eqn:Hc.
    destruct (chat_all ai1 rest) as [rs ai2] eqn:Hrest.
    intros [= <- <-].
    destruct (chat_history_length _ _ _ _ _ _ _ Hc) as [Hk Hl].
    destruct (IH _ _ _ Hrest) as [Hk' Hl'].
    split; [congruence|]. rewrite Hl', Hl. simpl. destruct (is_ok r); simpl; lia.
Qed.

(** After the history is cleared, [total_conversations] of [/api/stats]
    is the number of chat requests that were answered with a reply:
    requests answered with an error are not counted, and no chat request
    changes the admin tier. *)
Theorem stats_count_accepted_chats (ai : CollegeAI)
    (requests : list (json * nat * string * string)) :
  let run := chat_all (clear_history ai) requests in
  fst (get_stats (snd run)) = length (List.filter is_ok (fst run)) /\
  admin_knowledge (snd run) = admin_knowledge ai /\
  get_stats (clear_history ai) = (0, None).
Proof.
  intros run. destruct (chat_all (clear_history ai) requests) as [replies ai'] eqn:Hrun.
  destruct (chat_all_count requests _ _ _ Hrun) as [Hk Hl].
  assert (Hz : length (conversation_history (clear_history ai)) = 0) by reflexivity.
  rewrite Hz, Nat.add_0_l, Nat.mul_comm in Hl.
  unfold run. cbn [fst snd]. split; [|split; [exact Hk | reflexivity]].
  unfold get_stats. cbn [fst]. rewrite Hl. apply Nat.div_mul. discriminate.
Qed.

(** ** The upload route *)

Lemma count_tokens_keys (toks : list string) (k : string) :
  In k (map fst (count_tokens toks)) -> In k toks.
Proof.
  intros H. unfold count_tokens in H.
  rewrite (proj1 (count_tokens_fold toks [])) in H.
  apply (first_seen_In (List.filter counted toks) k) in H.
  apply filter_In in H. tauto.
Qed.

Lemma frequent_tokens_in (extracted_text k : string) :
  In k (frequent_tokens extracted_text) -> In k (tokenize extracted_text).
Proof.
  unfold frequent_tokens. intros H. apply in_map_iff in H. destruct H as ([k' n] & <- & H).
  apply count_tokens_keys. apply in_map_iff. exists (k', n). split; [reflexivity|].
  apply (Permutation_in _ (sorted_desc_perm _)).
  rewrite <- (firstn_skipn 10 (sorted_desc _)). apply in_or_app. now left.
Qed.

Lemma upload_keywords_lowercase (order : gset string -> list string)
    (title raw_keywords extracted_text : string) :
  (forall X k, In k (order X) -> k ∈ X) ->
  Forall (fun k => lower k = k)
         (upload_keywords order title raw_keywords extracted_text).
Proof.
  intros Horder. apply List.Forall_forall. intros k Hk. unfold upload_keywords in Hk.
  assert (Hin : In k (List.filter nonempty
                        (order (base_tokens title raw_keywords extracted_text)))).
  { rewrite <- (firstn_skipn 25 (List.filter nonempty _)). apply in_or_app. now left. }
  apply filter_In in Hin. destruct Hin as [Hin _]. apply Horder in Hin.
  unfold base_tokens in Hin.
  rewrite !elem_of_union, !elem_of_list_to_set, !list_elem_of_In in Hin.
  destruct Hin as [[Hin | Hin] | Hin].
  - unfold form_keywords in Hin. apply in_map_iff in Hin. destruct Hin as (x & <- & _).
    apply lower_idem.
  - assert (Hin' : In k (List.filter (fun t => 2 <? String.length t) (tokenize title))).
    { rewrite <- (firstn_skipn 5 (List.filter _ (tokenize title))). apply in_or_app. now left. }
    apply filter_In in Hin'. destruct Hin' as [Hin' _].
    pose proof (tokenize_lowercase title) as Hl. rewrite List.Forall_forall in Hl. now apply Hl.
  - apply frequent_tokens_in in Hin.
    pose proof (tokenize_lowercase extracted_text) as Hl.
    rewrite List.Forall_forall in Hl. now apply Hl.
Qed.

(** Whenever the upload route refuses (401, 400 for a document without
    text or without keywords, 500 for a failed write), the tier in
    memory and the knowledge file are what they were. *)
Theorem upload_refused_keeps_store (order : gset string -> list string)
    (authorized : bool) (filename stem extracted_text : string)
    (form_title form_kws : option string) (new_id now : string) (write_ok : bool)
    (srv srv' : server) (status : nat) (error : string) :
  store_ok srv ->
  upload_pdf_knowledge order authorized filename stem extracted_text form_title form_kws
                       new_id now write_ok srv = (Refused status error, srv') ->
  view srv' = view srv /\ disk srv' = disk srv.
Proof.
  intros Hok. unfold upload_pdf_knowledge.
  destruct authorized; simpl negb; cbv iota; [|intros [= _ _ <-]; auto].
  destruct (upload_responses (remove_nul extracted_text)) as [[|first more]|];
    try (intros [= _ _ <-]; auto).
  destruct (upload_keywords order _ _ _) as [|k ks]; [intros [= _ _ <-]; auto|].
  destruct write_ok; simpl; [discriminate|]. intros [= _ _ <-].
  split; [apply (view_appended srv _ _ Hok) | reflexivity].
Qed.

Lemma upload_refused_keeps_store_witness :
  let srv := mk_server [mk_entry "e1" "Fees" ["fees"] ["Ask the bursar."] "t0" None] [0] None in
  view (snd (upload_pdf_knowledge elements true "rules.pdf" "rules" "Exam rules apply."
               None None "e2" "t1" false srv)) = view srv.
Proof.
  intros srv.
  destruct (upload_pdf_knowledge elements true "rules.pdf" "rules" "Exam rules apply."
              None None "e2" "t1" false srv) as [r srv'] eqn:Hup.
  assert (Hr : r = Refused 500 "Failed to save entry")
    by (apply (f_equal fst) in Hup; vm_compute in Hup; now symmetry).
  subst r.
  apply (upload_refused_keeps_store _ _ _ _ _ _ _ _ _ _ srv srv' _ _) in Hup; [apply Hup|].
  split; [repeat constructor | apply NoDup_singleton].
Defined.

(** When the upload route succeeds, the new entry is appended at the
    end of the tier and the file holds the new tier; the entry has the
    title of the form or else the file name without its extension, the
    stored file name as [source_pdf], the first segments of the cleaned
    text as responses (at least one), and at least one keyword, all of
    them lowercase; the preview is the first 200 characters of the first
    response. *)
Theorem upload_success_appends (order : gset string -> list string)
    (authorized : bool) (filename stem extracted_text : string)
    (form_title form_kws : option string) (new_id now : string) (write_ok : bool)
    (srv srv' : server) (e : entry) (preview : string) :
  store_ok srv ->
  (forall X k, In k (order X) -> k ∈ X) ->
  upload_pdf_knowledge order authorized filename stem extracted_text form_title form_kws
                       new_id now write_ok srv = (Uploaded e preview, srv') ->
  authorized = true /\ write_ok = true /\
  view srv' = view srv ++ [e] /\ disk srv' = Some (tier_json (view srv')) /\
  store_ok srv' /\
  id e = new_id /\ created_at e = now /\ source_pdf e = Some filename /\
  title e = form_or form_title stem /\
  upload_responses (remove_nul extracted_text) = Some (responses e) /\
  keywords e = upload_keywords order (title e) (form_or form_kws EmptyString)
                               (remove_nul extracted_text) /\
  keywords e <> [] /\ lowercase_keywords e /\
  exists first more, responses e = first :: more /\ preview = take_str 200 first.
Proof.
  intros Hok Horder. unfold upload_pdf_knowledge.
  destruct authorized; simpl negb; cbv iota; [|discriminate].
  destruct (upload_responses (remove_nul extracted_text)) as [[|first more]|] eqn:Hresp;
    try discriminate.
  destruct (upload_keywords order (form_or form_title stem) (form_or form_kws EmptyString)
              (remove_nul extracted_text)) as [|k ks] eqn:Hkw; [discriminate|].
  destruct write_ok; simpl; [|discriminate]. intros [= <- <- <-].
  split; [reflexivity|]. split; [reflexivity|].
  split; [apply (view_appended srv _ _ Hok)|].
  split; [reflexivity|].
  split; [apply (store_ok_grow srv _ _ Hok)|].
  simpl. repeat split; try discriminate.
  - now rewrite Hkw.
  - unfold lowercase_keywords. simpl. rewrite <- Hkw.
    now apply upload_keywords_lowercase.
  - exists first, more. split; reflexivity.
Qed.

Lemma upload_success_appends_witness :
  let srv := mk_server [mk_entry "e1" "Fees" ["fees"] ["Ask the bursar."] "t0" None] [0] None in
  exists e, view (snd (upload_pdf_knowledge elements true "rules.pdf" "rules"
                         "Exam rules apply." None None "e2" "t1" true srv)) = view srv ++ [e] /\
            source_pdf e = Some "rules.pdf".
Proof.
  intros srv.
  destruct (upload_pdf_knowledge elements true "rules.pdf" "rules" "Exam rules apply."
              None None "e2" "t1" true srv) as [r srv'] eqn:Hup.
  assert (Hr : exists e p, r = Uploaded e p).
  { apply (f_equal fst) in Hup. vm_compute in Hup. subst r. eexists. eexists. reflexivity. }
  destruct Hr as (e & p & ->).
  apply (upload_success_appends _ _ _ _ _ _ _ _ _ _ srv srv' e p) in Hup.
  - destruct Hup as (_ & _ & Hview & _ & _ & _ & _ & Hpdf & _).
    exists e. split; [exact Hview | exact Hpdf].
  - split; [repeat constructor | apply NoDup_singleton].
  - intros X k Hk. now apply elem_of_elements, list_elem_of_In.
Defined.

(** ** A query that names a keyword *)

Lemma keyword_hits_pos (user_message_lower k : string) (kws : list string) :
  In k kws -> k <> EmptyString -> str_in k user_message_lower = true ->
  0 < keyword_hits user_message_lower kws.
Proof.
  intros Hin Hne Hsub. unfold keyword_hits.
  assert (H : In k (List.filter (fun k => nonempty k && str_in k user_message_lower) kws)).
  { apply filter_In. split; [exact Hin|]. rewrite Hsub, andb_true_r. now apply nonempty_true. }
  destruct (List.filter _ kws); [contradiction | simpl; lia].
Qed.

(** A query whose lowercased text contains a non-empty keyword of some
    admin entry is answered from the admin tier, whatever the built-in
    table would score, provided the entries of the tier have responses
    (as every entry that was added, updated or uploaded has): the reply
    is a response of the first entry with the greatest score, which is
    at least 3. *)
Theorem keyword_query_hits_admin_tier (kb : list (string * category)) (tier : list entry)
    (rnd : nat) (q k : string) (e : entry) :
  In e tier -> In k (keywords e) -> k <> EmptyString ->
  str_in k (lower q) = true ->
  Forall (fun x => responses x <> []) tier ->
  exists best,
    selected_branch kb tier q = AdminMatch best /\ In best tier /\
    3 <= _score_entry_match (lower q) (token_set q) best /\
    In (random_choice rnd (responses best)) (responses best) /\
    response_text kb tier rnd q =
      personalize_admin q (random_choice rnd (responses best)).
Proof.
  intros He Hk Hne Hsub Hresp.
  set (sc := _score_entry_match (lower q) (token_set q)).
  assert (Hse : 3 <= sc e).
  { unfold sc, _score_entry_match.
    pose proof (keyword_hits_pos (lower q) k (keywords e) Hk Hne Hsub). lia. }
  destruct (rank_some_positive sc tier) as (l1 & best & l2 & Ht & Hpos & H1 & H2 & Hr).
  { exists e. split; [exact He | lia]. }
  assert (Hbest : In best tier) by (rewrite Ht; apply in_or_app; right; now left).
  assert (Hbr : responses best <> []).
  { rewrite List.Forall_forall in Hresp. now apply Hresp. }
  assert (Hge : sc e <= sc best).
  { rewrite Ht in He. apply in_app_or in He. destruct He as [He | [<- | He]].
    - rewrite List.Forall_forall in H1. specialize (H1 e He). lia.
    - lia.
    - rewrite List.Forall_forall in H2. now apply H2. }
  assert (Hg : admin_guard (rank_admin tier q) = Some best).
  { apply admin_guard_some. exists (sc best). repeat split; assumption. }
  exists best. repeat split.
  - unfold selected_branch. now rewrite Hg.
  - exact Hbest.
  - fold sc. lia.
  - now apply random_choice_in.
  - unfold response_text. now rewrite Hg.
Qed.

Lemma keyword_query_hits_admin_tier_witness :
  let e := mk_entry "e1" "Parking" ["parking"] ["Permits are sold online."] "t0" None in
  response_text _load_knowledge_base [e] 0 "Is there PARKING on campus?" =
  personalize_admin "Is there PARKING on campus?" "Permits are sold online.".
Proof.
  intros e.
  destruct (keyword_query_hits_admin_tier _load_knowledge_base [e] 0
              "Is there PARKING on campus?" "parking" e)
    as (best & _ & Hin & _ & _ & Heq).
  - now left.
  - now left.
  - discriminate.
  - vm_compute. reflexivity.
  - constructor; [discriminate | constructor].
  - destruct Hin as [<- | []]. exact Heq.
Defined.
